(** * params_manager_py: the ROS 2 parameter manager [PManager]

    A shallow embedding of [params_manager_py/params_manager.py] and the
    properties of its update callback, declaration store and bulk loader.

    The manager object is a record that is passed explicitly.  The node it
    wraps is a map from attribute names to attributes (values and
    callables), as [getattr], [hasattr] and [setattr] see it, together with
    the history of the calls the manager made on it: log lines, validator
    calls, [setattr] and [declare_parameter].  Methods that can raise live in
    a state-and-exception monad in which the state survives an exception,
    as a mutated Python object does.

    What lies outside the module is a parameter of the development (class
    [Runtime]): the conversions of the Python runtime on text and floats,
    the callables of the node, and rclpy's [declare_parameter].  A callable
    of the node returns (it does not raise), may read and change the
    attributes of the node, and does not reach the manager's dictionary.
    [declare_parameter] is seen from the manager's side: the call is made,
    and it returns or raises.  Opening and parsing the file is seen through
    its outcome ([load_outcome]). *)

From Stdlib Require Import ZArith.
From Stdlib Require QArith DecimalString.
From stdpp Require Import gmap strings list fin_maps sorting.

Local Open Scope Z_scope.
Set Warnings "-register-all".

(** ** Messages of [rcl_interfaces.msg] *)

(** [ParameterType]: the type tags, constants 0 to 9 of the message
    definition.  The tag carried by a [Parameter] and the tag stored at
    declaration are taken from this one enumeration and compared with the
    equality of the enumeration. *)
Inductive ParameterType :=
| PARAMETER_NOT_SET
| PARAMETER_BOOL
| PARAMETER_INTEGER
| PARAMETER_DOUBLE
| PARAMETER_STRING
| PARAMETER_BYTE_ARRAY
| PARAMETER_BOOL_ARRAY
| PARAMETER_INTEGER_ARRAY
| PARAMETER_DOUBLE_ARRAY
| PARAMETER_STRING_ARRAY.

Global Instance ParameterType_eq_dec : EqDecision ParameterType.
Proof. solve_decision. Defined.

(** [SetParametersResult]: what the update callback returns. *)
Record SetParametersResult := {
  successful : bool;
  reason : string
}.

(** [IntegerRange] and [FloatingPointRange]: one record, at two number types. *)
Record Range (T : Type) := {
  from_value : T;
  to_value : T;
  step : T
}.
Arguments from_value {T} _.
Arguments to_value {T} _.
Arguments step {T} _.

(** Identifier of a callable attribute of the node (a bound method). *)
Definition callable_id := nat.

Inductive log_level := Info | Error | Fatal.

Global Instance log_level_eq_dec : EqDecision log_level.
Proof. solve_decision. Defined.

(** Python's [float]; nothing in the manager computes with it. *)
Class PyFloat := { double : Type }.

Section data_model.
Context `{PyFloat}.

(** The value of a parameter. *)
Inductive pvalue :=
| VNone
| VBool (b : bool)
| VInt (z : Z)
| VDouble (d : double)
| VStr (s : string)
| VBytes (bs : list Byte.byte)
| VBoolArray (bs : list bool)
| VIntArray (zs : list Z)
| VDoubleArray (ds : list double)
| VStrArray (ss : list string).

(** The class [Parameter] of [rclpy.parameter]. *)
Record RclpyParameter := {
  name : string;
  type_ : ParameterType;
  value : pvalue
}.

Record ParameterDescriptor := {
  desc_name : string;
  desc_type : ParameterType;
  description : string;
  additional_constraints : string;
  read_only : bool;
  dynamic_typing : bool;
  floating_point_range : list (Range double);
  integer_range : list (Range Z)
}.

(** An attribute of the node object: a plain value or a callable. *)
Inductive attr :=
| AValue (v : pvalue)
| ACallable (f : callable_id).

(** What the manager did on the node, oldest first. *)
Inductive event :=
| EvLog (lvl : log_level) (msg : string)
| EvCall (f : callable_id) (p : RclpyParameter)
| EvSetattr (var : string) (v : pvalue)
| EvDeclare (n : string) (default_val : pvalue) (descriptor : ParameterDescriptor).

(** The node: its attributes, and the history of calls made on it. *)
Record Node := {
  attrs : gmap string attr;
  history : list event
}.

(** One entry of [_params_data]: the dictionary with the keys ['type'],
    ['var_name'] and ['validator']. *)
Record param_data := {
  type : ParameterType;
  var_name : string;
  validator : string
}.

(** The object [self]. *)
Record PManager := {
  _node : Node;
  _params_data : gmap string param_data;
  _verbose : bool
}.

(** Exceptions. *)
Inductive exn :=
| KeyError (key : string)
| ValueError (msg : string)
| TypeError (msg : string)
| AttributeError (msg : string)
| RuntimeError (msg : string)
| OtherException (msg : string).

(** The YAML document as [yaml.SafeLoader] builds it: a mapping is the
    list of its items in iteration order, with string keys. *)
Inductive yaml :=
| YNone
| YBool (b : bool)
| YInt (z : Z)
| YFloat (d : double)
| YStr (s : string)
| YList (l : list yaml)
| YMap (m : list (string * yaml)).
End data_model.


(** The result of a call that can raise. *)
Definition result (A : Type) : Type := exn + A.

(** ** What the Python runtime, the node's methods and rclpy provide *)
Class Runtime `{PyFloat} := {
  (** [int(s)] and [float(s)] on a string, [int(x)] on a float, [float(n)]
      on an integer. *)
  int_of_str : string → result Z;
  float_of_str : string → result double;
  int_of_float : double → result Z;
  float_of_int : Z → result double;
  (** [str(v)] of a YAML value that is neither a string, a boolean nor [None]. *)
  str_other : yaml → string;
  (** [f"{v}"] of a parameter value that is not a string. *)
  format_other : pvalue → string;
  (** Calling a callable attribute of the node with a parameter: the
      truth value of what it returns, and the node's attributes afterwards. *)
  call : callable_id → RclpyParameter → gmap string attr →
         bool * gmap string attr;
  (** [Node.declare_parameter]: the exception it raises, if any. *)
  declare_parameter_raises :
    Node → string → pvalue → ParameterDescriptor → option exn
}.

Global Instance result_ret : MRet result := λ A a, inr a.

Global Instance result_bind : MBind result := λ A B k r,
  match r with
  | inl e => inl e
  | inr a => k a
  end.

(** ** Python's builtins on YAML values *)
Section builtins.
Context `{Runtime}.

(** [d[key]] where [d] is a dict: the first binding of the key. *)
Fixpoint dict_lookup (key : string) (m : list (string * yaml)) : option yaml :=
  match m with
  | [] => None
  | (k, v) :: rest => if bool_decide (k = key) then Some v else dict_lookup key rest
  end.

(** [values[key]] *)
Definition getitem (values : yaml) (key : string) : result yaml :=
  match values with
  | YMap m =>
      match dict_lookup key m with
      | Some v => inr v
      | None => inl (KeyError key)
      end
  | YStr _ => inl (TypeError "string indices must be integers")
  | YList _ => inl (TypeError "list indices must be integers or slices, not str")
  | _ => inl (TypeError "object is not subscriptable")
  end.

(** [values.get(key, '')] *)
Definition get_or_empty (values : yaml) (key : string) : result yaml :=
  match values with
  | YMap m => inr (default (YStr "") (dict_lookup key m))
  | _ => inl (AttributeError "object has no attribute 'get'")
  end.

(** [v == s] for a string literal [s]. *)
Definition eq_str (v : yaml) (s : string) : bool :=
  match v with
  | YStr s' => bool_decide (s' = s)
  | _ => false
  end.

(** [str(v)] *)
Definition py_str (v : yaml) : string :=
  match v with
  | YStr s => s
  | YBool true => "True"
  | YBool false => "False"
  | YNone => "None"
  | _ => str_other v
  end.

(** [int(v)] *)
Definition py_int (v : yaml) : result Z :=
  match v with
  | YInt z => inr z
  | YBool b => inr (if b then 1 else 0)
  | YFloat d => int_of_float d
  | YStr s => int_of_str s
  | _ => inl (TypeError "int() argument must be a string, a bytes-like object or a real number")
  end.

(** [float(v)] *)
Definition py_float (v : yaml) : result double :=
  match v with
  | YFloat d => inr d
  | YInt z => float_of_int z
  | YBool b => float_of_int (if b then 1 else 0)
  | YStr s => float_of_str s
  | _ => inl (TypeError "float() argument must be a string or a real number")
  end.

(** [list(v)]: the elements of a list, the characters of a string, the
    keys of a dict. *)
Definition py_list (v : yaml) : result (list yaml) :=
  match v with
  | YList l => inr l
  | YStr s => inr ((λ c, YStr (String c "")) <$> String.list_ascii_of_string s)
  | YMap m => inr ((λ kv, YStr kv.1) <$> m)
  | _ => inl (TypeError "object is not iterable")
  end.

(** ['params' in v] *)
Definition contains_params (v : yaml) : result bool :=
  match v with
  | YMap m => inr (bool_decide (is_Some (dict_lookup "params" m)))
  | YStr s => inr (bool_decide (is_Some (String.index 0 "params" s)))
  | YList l => inr (existsb (λ x, eq_str x "params") l)
  | _ => inl (TypeError "argument is not iterable")
  end.

(** [v.items()] *)
Definition items (v : yaml) : result (list (string * yaml)) :=
  match v with
  | YMap m => inr m
  | _ => inl (AttributeError "object has no attribute 'items'")
  end.
End builtins.

(** [sorted(d.items())]: the items are compared on their keys, which are
    distinct in a dict; strings compare character by character. *)
Definition item_le `{PyFloat} (x y : string * yaml) : Prop := String.le x.1 y.1.

Global Instance item_le_dec `{PyFloat} : RelDecision item_le.
Proof. intros x y. unfold item_le. apply _. Defined.

Global Instance item_le_total `{PyFloat} : Total item_le.
Proof. intros x y. unfold item_le. apply (total String.le). Qed.

Global Instance item_le_trans `{PyFloat} : Transitive item_le.
Proof. intros x y z. unfold item_le. apply (transitivity (R := String.le)). Qed.

Definition sorted `{PyFloat} (l : list (string * yaml)) : list (string * yaml) :=
  merge_sort item_le l.

Section manager.
Context `{Runtime}.

(** *** The node object *)

Definition record (e : event) (n : Node) : Node :=
  {| attrs := attrs n; history := history n ++ [e] |}.

(** [node.get_logger().error(msg)], [.info(msg)] and [.fatal(msg)]. *)
Definition logger_error (msg : string) : Node → Node := record (EvLog Error msg).
Definition logger_info (msg : string) : Node → Node := record (EvLog Info msg).
Definition logger_fatal (msg : string) : Node → Node := record (EvLog Fatal msg).

(** [getattr(node, a, None)]: [None] when the attribute is absent. *)
Definition getattr (n : Node) (a : string) : option attr := attrs n !! a.

(** [hasattr(node, a)]. *)
Definition hasattr (n : Node) (a : string) : bool :=
  bool_decide (is_Some (attrs n !! a)).

(** [setattr(node, a, v)]. *)
Definition setattr (a : string) (v : pvalue) (n : Node) : Node :=
  {| attrs := <[a := AValue v]> (attrs n);
     history := history n ++ [EvSetattr a v] |}.

(** [f(p)] for a callable attribute [f] of the node. *)
Definition invoke (f : callable_id) (p : RclpyParameter) (n : Node) : bool * Node :=
  let '(verdict, attrs') := call f p (attrs n) in
  (verdict, {| attrs := attrs'; history := history n ++ [EvCall f p] |}).

Definition with_node (n : Node) (self : PManager) : PManager :=
  {| _node := n; _params_data := _params_data self; _verbose := _verbose self |}.

(** *** [_log_update] *)

(** [f"{v}"] *)
Definition format_value (v : pvalue) : string :=
  match v with
  | VStr s => s
  | _ => format_other v
  end.

Definition quoted (s : string) : string := "'" +:+ s +:+ "'".

(** The loop over a string array: every element quoted, [", "] after
    each one but the last. *)
Fixpoint format_string_items (ss : list string) : string :=
  match ss with
  | [] => ""
  | [s] => quoted s
  | s :: rest => quoted s +:+ ", " +:+ format_string_items rest
  end.

(** [bs.decode('ascii', errors='replace')]: a byte above 127 becomes
    U+FFFD (here in UTF-8). *)
Definition decode_ascii_replace (bs : list Byte.byte) : string :=
  foldr (λ b acc,
           if (Byte.to_N b <? 128)%N
           then String (Ascii.ascii_of_byte b) acc
           else String (Ascii.ascii_of_nat 239)
                  (String (Ascii.ascii_of_nat 191)
                     (String (Ascii.ascii_of_nat 189) acc)))
        "" bs.

(** [bs[:8]] and [bs[-8:]] *)
Definition first_8 (bs : list Byte.byte) : list Byte.byte := take 8 bs.
Definition last_8 (bs : list Byte.byte) : list Byte.byte := drop (length bs - 8) bs.

(** The message of [_log_update].  A parameter built by rclpy has a value
    of the shape of its tag; for any other pair of tag and value the text of
    the value is [format_value]. *)
Definition log_update_msg (p : RclpyParameter) : string :=
  "[PARAM] '" +:+ name p +:+ "': " +:+
  match type_ p, value p with
  | PARAMETER_STRING, v => quoted (format_value v)
  | PARAMETER_STRING_ARRAY, VStrArray ss => "[" +:+ format_string_items ss +:+ "]"
  | PARAMETER_BYTE_ARRAY, VBytes bs =>
      "['" +:+ decode_ascii_replace (first_8 bs) +:+ "' ... '"
           +:+ decode_ascii_replace (last_8 bs) +:+ "']"
  | _, v => format_value v
  end.

Definition _log_update (p : RclpyParameter) (n : Node) : Node :=
  logger_info (log_update_msg p) n.

(** *** [_on_set_parameters_callback] *)

Definition type_mismatch_msg (n : string) : string :=
  "Parameter '" +:+ n +:+ "' type mismatch".

Definition validation_failed_msg (n : string) : string :=
  "Parameter '" +:+ n +:+ "' update validation failed".

Definition failed (msg : string) : SetParametersResult :=
  {| successful := false; reason := msg |}.

(** "Run validator, if present": [true] when the attribute named by
    ['validator'] exists, is callable, and its call on [p] is falsy. *)
Definition validator_rejects (p_data : param_data) (p : RclpyParameter) (n : Node)
  : bool * Node :=
  match getattr n (validator p_data) with
  | Some (ACallable f) =>
      let '(verdict, n') := invoke f p n in (negb verdict, n')
  | _ => (false, n)
  end.

(** "Update variable, if present". *)
Definition update_variable (p_data : param_data) (p : RclpyParameter) (n : Node) : Node :=
  if hasattr n (var_name p_data)
  then setattr (var_name p_data) (value p) n
  else n.

(** "Log update". *)
Definition log_if_verbose (verbose : bool) (p : RclpyParameter) (n : Node) : Node :=
  if verbose then _log_update p n else n.

(** The body of the loop for one parameter: [Some res] when the callback
    returns [res] at this parameter, [None] when the loop goes on. *)
Definition callback_item (self : PManager) (p : RclpyParameter)
  : option SetParametersResult * PManager :=
  match _params_data self !! name p with
  | None => (None, self)
  | Some p_data =>
      if bool_decide (type_ p ≠ type p_data) then
        (Some (failed (type_mismatch_msg (name p))),
         with_node (logger_error (type_mismatch_msg (name p)) (_node self)) self)
      else
        let '(rejected, n1) := validator_rejects p_data p (_node self) in
        if rejected then
          (Some (failed (validation_failed_msg (name p))),
           with_node (logger_error (validation_failed_msg (name p)) n1) self)
        else
          (None,
           with_node (log_if_verbose (_verbose self) p (update_variable p_data p n1)) self)
  end.

Fixpoint callback_loop (params : list RclpyParameter) (res : SetParametersResult)
  (self : PManager) : SetParametersResult * PManager :=
  match params with
  | [] => (res, self)
  | p :: rest =>
      match callback_item self p with
      | (Some r, self') => (r, self')
      | (None, self') => callback_loop rest res self'
      end
  end.

Definition _on_set_parameters_callback (self : PManager) (params : list RclpyParameter)
  : SetParametersResult * PManager :=
  callback_loop params {| successful := true; reason := "" |} self.

(** *** Methods that can raise *)

(** A method of the manager that can raise: it returns the exception or the
    value, and the manager as the call left it in either case. *)
Definition M (A : Type) : Type := PManager → result A * PManager.

Global Instance M_ret : MRet M := λ A a self, (inr a, self).

Global Instance M_bind : MBind M := λ A B k m self,
  match m self with
  | (inl e, self') => (inl e, self')
  | (inr a, self') => k a self'
  end.

Definition raise {A} (e : exn) : M A := λ self, (inl e, self).

(** A computation that does not touch the manager. *)
Definition lift {A} (r : result A) : M A := λ self, (r, self).

(** [try: body / except Exception as e: handler e] *)
Definition try_except {A} (body : M A) (handler : exn → M A) : M A := λ self,
  match body self with
  | (inl e, self') => handler e self'
  | (inr a, self') => (inr a, self')
  end.

(** [str(e)] *)
Definition exn_str (e : exn) : string :=
  match e with
  | KeyError key => quoted key
  | ValueError msg | TypeError msg | AttributeError msg
  | RuntimeError msg | OtherException msg => msg
  end.

(** *** [_add_to_data] *)

Definition _add_to_data (n : string) (ty : ParameterType) (var validator_name : string)
  : M unit := λ self,
  let param_data := {| type := ty; var_name := var; validator := validator_name |} in
  (inr tt,
   {| _node := _node self;
      _params_data := <[n := param_data]> (_params_data self);
      _verbose := _verbose self |}).

(** *** [_parse_bool_str] *)

Definition _parse_bool_str (word : string) : result bool :=
  if bool_decide (word = "true") || bool_decide (word = "True") then inr true
  else if bool_decide (word = "false") || bool_decide (word = "False") then inr false
  else inl (ValueError ("Unknown boolean text representation: " +:+ word)).

(** *** The [_declare_*_parameter] methods *)

(** [self._node.declare_parameter(name, default_val, descriptor)]: the
    call is made, and rclpy accepts it or raises. *)
Definition node_declare_parameter (n : string) (default_val : pvalue)
  (descriptor : ParameterDescriptor) : M unit := λ self,
  let node' := record (EvDeclare n default_val descriptor) (_node self) in
  match declare_parameter_raises (_node self) n default_val descriptor with
  | Some e => (inl e, with_node node' self)
  | None => (inr tt, with_node node' self)
  end.

Definition descriptor_of (n : string) (ty : ParameterType) (desc constraints : string)
  (ro : bool) (frange : list (Range double)) (irange : list (Range Z))
  : ParameterDescriptor :=
  {| desc_name := n; desc_type := ty; description := desc;
     additional_constraints := constraints; read_only := ro;
     dynamic_typing := false;
     floating_point_range := frange; integer_range := irange |}.

Definition _declare_bool_parameter (n : string) (default_val : bool)
  (desc constraints : string) (ro : bool) (var validator_name : string) : M unit :=
  _add_to_data n PARAMETER_BOOL var validator_name ;;
  node_declare_parameter n (VBool default_val)
    (descriptor_of n PARAMETER_BOOL desc constraints ro [] []).

Definition _declare_bool_array_parameter (n : string) (default_val : list bool)
  (desc constraints : string) (ro : bool) (var validator_name : string) : M unit :=
  _add_to_data n PARAMETER_BOOL_ARRAY var validator_name ;;
  node_declare_parameter n (VBoolArray default_val)
    (descriptor_of n PARAMETER_BOOL_ARRAY desc constraints ro [] []).

Definition _declare_integer_parameter (n : string) (default_val from_val to_val stp : Z)
  (desc constraints : string) (ro : bool) (var validator_name : string) : M unit :=
  _add_to_data n PARAMETER_INTEGER var validator_name ;;
  let range := {| from_value := from_val; to_value := to_val; step := stp |} in
  node_declare_parameter n (VInt default_val)
    (descriptor_of n PARAMETER_INTEGER desc constraints ro [] [range]).

Definition _declare_integer_array_parameter (n : string) (default_val : list Z)
  (from_val to_val stp : Z)
  (desc constraints : string) (ro : bool) (var validator_name : string) : M unit :=
  _add_to_data n PARAMETER_INTEGER_ARRAY var validator_name ;;
  let range := {| from_value := from_val; to_value := to_val; step := stp |} in
  node_declare_parameter n (VIntArray default_val)
    (descriptor_of n PARAMETER_INTEGER_ARRAY desc constraints ro [] [range]).

Definition _declare_double_parameter (n : string) (default_val from_val to_val stp : double)
  (desc constraints : string) (ro : bool) (var validator_name : string) : M unit :=
  _add_to_data n PARAMETER_DOUBLE var validator_name ;;
  let range := {| from_value := from_val; to_value := to_val; step := stp |} in
  node_declare_parameter n (VDouble default_val)
    (descriptor_of n PARAMETER_DOUBLE desc constraints ro [range] []).

Definition _declare_double_array_parameter (n : string) (default_val : list double)
  (from_val to_val stp : double)
  (desc constraints : string) (ro : bool) (var validator_name : string) : M unit :=
  _add_to_data n PARAMETER_DOUBLE_ARRAY var validator_name ;;
  let range := {| from_value := from_val; to_value := to_val; step := stp |} in
  node_declare_parameter n (VDoubleArray default_val)
    (descriptor_of n PARAMETER_DOUBLE_ARRAY desc constraints ro [range] []).

Definition _declare_string_parameter (n : string) (default_val : string)
  (desc constraints : string) (ro : bool) (var validator_name : string) : M unit :=
  _add_to_data n PARAMETER_STRING var validator_name ;;
  node_declare_parameter n (VStr default_val)
    (descriptor_of n PARAMETER_STRING desc constraints ro [] []).

Definition _declare_string_array_parameter (n : string) (default_val : list string)
  (desc constraints : string) (ro : bool) (var validator_name : string) : M unit :=
  _add_to_data n PARAMETER_STRING_ARRAY var validator_name ;;
  node_declare_parameter n (VStrArray default_val)
    (descriptor_of n PARAMETER_STRING_ARRAY desc constraints ro [] []).

Definition declare_byte_array_parameter (n : string) (default_val : list Byte.byte)
  (desc constraints : string) (ro : bool) (var validator_name : string) : M unit :=
  _add_to_data n PARAMETER_BYTE_ARRAY var validator_name ;;
  node_declare_parameter n (VBytes default_val)
    (descriptor_of n PARAMETER_BYTE_ARRAY desc constraints ro [] []).

(** *** [_parse_params_file] *)

(** The arguments every branch evaluates last, in the order of the call:
    description, constraints, read_only, var_name, validator. *)
Record common_args := {
  c_desc : string;
  c_constraints : string;
  c_read_only : bool;
  c_var_name : string;
  c_validator : string
}.

(** The call a record leads to, with its arguments evaluated. *)
Inductive declare_call :=
| CallInteger (default_val from_val to_val stp : Z) (c : common_args)
| CallDouble (default_val from_val to_val stp : double) (c : common_args)
| CallBool (default_val : bool) (c : common_args)
| CallString (default_val : string) (c : common_args)
| CallIntegerArray (default_val : list Z) (from_val to_val stp : Z) (c : common_args)
| CallDoubleArray (default_val : list double) (from_val to_val stp : double) (c : common_args)
| CallBoolArray (default_val : list bool) (c : common_args)
| CallStringArray (default_val : list string) (c : common_args).

Definition field_str (values : yaml) (key : string) : result string :=
  v ← getitem values key; mret (py_str v).

Definition field_int (values : yaml) (key : string) : result Z :=
  v ← getitem values key; py_int v.

Definition field_float (values : yaml) (key : string) : result double :=
  v ← getitem values key; py_float v.

Definition field_bool (values : yaml) (key : string) : result bool :=
  v ← getitem values key; _parse_bool_str (py_str v).

Definition field_list (values : yaml) (key : string) : result (list yaml) :=
  v ← getitem values key; py_list v.

Definition field_opt_str (values : yaml) (key : string) : result string :=
  v ← get_or_empty values key; mret (py_str v).

Definition common_fields (values : yaml) : result common_args :=
  desc ← field_str values "description";
  constraints ← field_str values "constraints";
  ro ← field_bool values "read_only";
  var ← field_opt_str values "var_name";
  validator_name ← field_opt_str values "validator";
  mret {| c_desc := desc; c_constraints := constraints; c_read_only := ro;
          c_var_name := var; c_validator := validator_name |}.

(** The body of the [try], up to the call: the dispatch on
    [values['type']] and the evaluation of the arguments, left to right. *)
Definition parse_record (values : yaml) : result declare_call :=
  ty ← getitem values "type";
  if eq_str ty "integer" then
    default_val ← field_int values "default_value";
    from_val ← field_int values "min_value";
    to_val ← field_int values "max_value";
    stp ← field_int values "step";
    c ← common_fields values;
    mret (CallInteger default_val from_val to_val stp c)
  else if eq_str ty "double" then
    default_val ← field_float values "default_value";
    from_val ← field_float values "min_value";
    to_val ← field_float values "max_value";
    stp ← field_float values "step";
    c ← common_fields values;
    mret (CallDouble default_val from_val to_val stp c)
  else if eq_str ty "bool" then
    default_val ← field_bool values "default_value";
    c ← common_fields values;
    mret (CallBool default_val c)
  else if eq_str ty "string" then
    default_val ← field_str values "default_value";
    c ← common_fields values;
    mret (CallString default_val c)
  else if eq_str ty "integer_array" then
    vals ← field_list values "default_value";
    default_values ← mapM py_int vals;
    from_val ← field_int values "min_value";
    to_val ← field_int values "max_value";
    stp ← field_int values "step";
    c ← common_fields values;
    mret (CallIntegerArray default_values from_val to_val stp c)
  else if eq_str ty "double_array" then
    vals ← field_list values "default_value";
    default_values ← mapM py_float vals;
    from_val ← field_float values "min_value";
    to_val ← field_float values "max_value";
    stp ← field_float values "step";
    c ← common_fields values;
    mret (CallDoubleArray default_values from_val to_val stp c)
  else if eq_str ty "bool_array" then
    vals ← field_list values "default_value";
    default_values ← mapM (λ val, _parse_bool_str (py_str val)) vals;
    c ← common_fields values;
    mret (CallBoolArray default_values c)
  else if eq_str ty "string_array" then
    vals ← field_list values "default_value";
    c ← common_fields values;
    mret (CallStringArray (py_str <$> vals) c)
  else
    inl (ValueError ("Unsupported parameter type: " +:+ py_str ty)).

(** The call itself. *)
Definition perform (param_name : string) (call : declare_call) : M unit :=
  match call with
  | CallInteger default_val from_val to_val stp c =>
      _declare_integer_parameter param_name default_val from_val to_val stp
        (c_desc c) (c_constraints c) (c_read_only c) (c_var_name c) (c_validator c)
  | CallDouble default_val from_val to_val stp c =>
      _declare_double_parameter param_name default_val from_val to_val stp
        (c_desc c) (c_constraints c) (c_read_only c) (c_var_name c) (c_validator c)
  | CallBool default_val c =>
      _declare_bool_parameter param_name default_val
        (c_desc c) (c_constraints c) (c_read_only c) (c_var_name c) (c_validator c)
  | CallString default_val c =>
      _declare_string_parameter param_name default_val
        (c_desc c) (c_constraints c) (c_read_only c) (c_var_name c) (c_validator c)
  | CallIntegerArray default_val from_val to_val stp c =>
      _declare_integer_array_parameter param_name default_val from_val to_val stp
        (c_desc c) (c_constraints c) (c_read_only c) (c_var_name c) (c_validator c)
  | CallDoubleArray default_val from_val to_val stp c =>
      _declare_double_array_parameter param_name default_val from_val to_val stp
        (c_desc c) (c_constraints c) (c_read_only c) (c_var_name c) (c_validator c)
  | CallBoolArray default_val c =>
      _declare_bool_array_parameter param_name default_val
        (c_desc c) (c_constraints c) (c_read_only c) (c_var_name c) (c_validator c)
  | CallStringArray default_val c =>
      _declare_string_array_parameter param_name default_val
        (c_desc c) (c_constraints c) (c_read_only c) (c_var_name c) (c_validator c)
  end.

Definition parse_failure_msg (param_name : string) (e : exn) : string :=
  "Failed to parse configuration of parameter " +:+ param_name +:+ ": " +:+ exn_str e.

(** One turn of the loop: the [try] and its [except]. *)
Definition declare_record (param_name : string) (values : yaml) : M unit :=
  try_except
    (call ← lift (parse_record values); perform param_name call)
    (λ e, raise (RuntimeError (parse_failure_msg param_name e))).

(** The loop over [params_dict.items()]. *)
Fixpoint declare_all (params : list (string * yaml)) : M unit :=
  match params with
  | [] => mret tt
  | (param_name, values) :: rest =>
      declare_record param_name values ;; declare_all rest
  end.

(** What opening and loading the file gave. *)
Inductive load_outcome :=
| FileNotFoundError
| YAMLError (e : string)
| LoadException (e : string)
| Loaded (params_yaml : yaml).

(** [get_logger().fatal(msg)] followed by [raise RuntimeError(msg)]. *)
Definition fatal {A} (msg : string) : M A := λ self,
  (inl (RuntimeError msg), with_node (logger_fatal msg (_node self)) self).

Definition _parse_params_file (params_file : string) (loaded : load_outcome) : M unit :=
  match loaded with
  | FileNotFoundError => fatal ("Parameters file not found: " +:+ params_file)
  | YAMLError e => fatal ("Invalid YAML in " +:+ params_file +:+ ": " +:+ e)
  | LoadException e => fatal ("Failed to parse parameters file: " +:+ e)
  | Loaded params_yaml =>
      invalid ← lift (match params_yaml return result bool with
                      | YNone => inr true
                      | _ => found ← contains_params params_yaml; mret (negb found)
                      end);
      if (invalid : bool) then fatal ("Invalid parameters file: " +:+ params_file)
      else
        params ← lift (getitem params_yaml "params" ≫= items);
        declare_all (sorted params)
  end.


End manager.

(** ** Vocabulary of the properties *)
Section vocabulary.
Context `{Runtime}.

(** The result the callback starts from, and returns when it rejects
    nothing. *)
Definition accepted : SetParametersResult := {| successful := true; reason := "" |}.

(** The writes to variables of the node that a history holds. *)
Definition writes (h : list event) : list (string * pvalue) :=
  omap (λ e, match e with EvSetattr var v => Some (var, v) | _ => None end) h.

(** The names [declare_parameter] was called with. *)
Definition declared_names (h : list event) : list string :=
  omap (λ e, match e with EvDeclare n _ _ => Some n | _ => None end) h.

(** [applied self items]: every declared item of [items] passed the type
    check and the validator in the state the items before it led to, and
    was written to its variable when the node has that variable. *)
Definition applied (self : PManager) (items : list RclpyParameter) : Prop :=
  ∀ pre q post p_data,
    items = pre ++ q :: post →
    _params_data self !! name q = Some p_data →
    ∃ s1 n1,
      _on_set_parameters_callback self pre = (accepted, s1) ∧
      type_ q = type p_data ∧
      validator_rejects p_data q (_node s1) = (false, n1) ∧
      (hasattr n1 (var_name p_data) = true →
       ∃ s2,
         _on_set_parameters_callback self (pre ++ [q]) = (accepted, s2) ∧
         attrs (_node s2) = <[var_name p_data := AValue (value q)]> (attrs n1) ∧
         writes (history (_node s2)) =
           writes (history (_node s1)) ++ [(var_name p_data, value q)]).

(** Whether [declare_parameter] was called for the name with a descriptor
    whose read-only flag is set. *)
Definition declared_read_only (h : list event) (n : string) : bool :=
  existsb (λ e, match e with
                | EvDeclare n' _ descriptor => bool_decide (n' = n) && read_only descriptor
                | _ => false
                end) h.

(** The type tag, the common arguments and the stored entry of a call. *)
Definition call_type (c : declare_call) : ParameterType :=
  match c with
  | CallInteger _ _ _ _ _ => PARAMETER_INTEGER
  | CallDouble _ _ _ _ _ => PARAMETER_DOUBLE
  | CallBool _ _ => PARAMETER_BOOL
  | CallString _ _ => PARAMETER_STRING
  | CallIntegerArray _ _ _ _ _ => PARAMETER_INTEGER_ARRAY
  | CallDoubleArray _ _ _ _ _ => PARAMETER_DOUBLE_ARRAY
  | CallBoolArray _ _ => PARAMETER_BOOL_ARRAY
  | CallStringArray _ _ => PARAMETER_STRING_ARRAY
  end.

Definition call_common (c : declare_call) : common_args :=
  match c with
  | CallInteger _ _ _ _ c | CallDouble _ _ _ _ c | CallBool _ c | CallString _ c
  | CallIntegerArray _ _ _ _ c | CallDoubleArray _ _ _ _ c
  | CallBoolArray _ c | CallStringArray _ c => c
  end.

Definition entry_of (c : declare_call) : param_data :=
  {| type := call_type c;
     var_name := c_var_name (call_common c);
     validator := c_validator (call_common c) |}.

(** The texts the boolean parser accepts. *)
Definition bool_texts : list string := ["true"; "True"; "false"; "False"].

(** The type tags of the input format, and those with bounds. *)
Definition supported_types : list string :=
  ["integer"; "integer_array"; "double"; "double_array";
   "bool"; "bool_array"; "string"; "string_array"].

Definition numeric_types : list string :=
  ["integer"; "integer_array"; "double"; "double_array"].

Definition required_fields (ty : string) : list string :=
  ["default_value"; "description"; "constraints"; "read_only"] ++
  (if bool_decide (ty ∈ numeric_types) then ["min_value"; "max_value"; "step"] else []).

(** A malformed record: a required field is missing, a boolean text does
    not parse, or the type tag is not supported. *)
Inductive malformed : yaml → Prop :=
| missing_type m :
    dict_lookup "type" m = None → malformed (YMap m)
| missing_field m ty key :
    dict_lookup "type" m = Some (YStr ty) →
    key ∈ required_fields ty →
    dict_lookup key m = None →
    malformed (YMap m)
| bad_read_only m v :
    dict_lookup "read_only" m = Some v →
    py_str v ∉ bool_texts →
    malformed (YMap m)
| bad_bool_default m v :
    dict_lookup "type" m = Some (YStr "bool") →
    dict_lookup "default_value" m = Some v →
    py_str v ∉ bool_texts →
    malformed (YMap m)
| bad_bool_array_element m v elems x :
    dict_lookup "type" m = Some (YStr "bool_array") →
    dict_lookup "default_value" m = Some v →
    py_list v = inr elems →
    x ∈ elems →
    py_str x ∉ bool_texts →
    malformed (YMap m)
| unsupported_type m ty :
    dict_lookup "type" m = Some ty →
    (∀ s, s ∈ supported_types → ty ≠ YStr s) →
    malformed (YMap m).

(** The manager with another verbosity flag. *)
Definition with_verbose (verbose : bool) (self : PManager) : PManager :=
  {| _node := _node self; _params_data := _params_data self; _verbose := verbose |}.

(** The lines logged at a level, oldest first. *)
Definition logged (lvl : log_level) (h : list event) : list string :=
  omap (λ e, match e with
             | EvLog lvl' msg => if decide (lvl' = lvl) then Some msg else None
             | _ => None
             end) h.

(** The history without the lines logged at level [Info]. *)
Definition without_info (h : list event) : list event :=
  omap (λ e, match e with
             | EvLog Info _ => None
             | _ => Some e
             end) h.

(** The validator calls that a history holds. *)
Definition calls (h : list event) : list (callable_id * RclpyParameter) :=
  omap (λ e, match e with EvCall f p => Some (f, p) | _ => None end) h.

(** Whether the store has an entry for the name of a parameter. *)
Definition declared (self : PManager) (p : RclpyParameter) : bool :=
  bool_decide (is_Some (_params_data self !! name p)).

(** The type tag that a value has by its shape. *)
Definition value_type (v : pvalue) : ParameterType :=
  match v with
  | VNone => PARAMETER_NOT_SET
  | VBool _ => PARAMETER_BOOL
  | VInt _ => PARAMETER_INTEGER
  | VDouble _ => PARAMETER_DOUBLE
  | VStr _ => PARAMETER_STRING
  | VBytes _ => PARAMETER_BYTE_ARRAY
  | VBoolArray _ => PARAMETER_BOOL_ARRAY
  | VIntArray _ => PARAMETER_INTEGER_ARRAY
  | VDoubleArray _ => PARAMETER_DOUBLE_ARRAY
  | VStrArray _ => PARAMETER_STRING_ARRAY
  end.

(** The type a type tag of the input format stands for. *)
Definition tag_type (ty : string) : option ParameterType :=
  if bool_decide (ty = "integer") then Some PARAMETER_INTEGER
  else if bool_decide (ty = "double") then Some PARAMETER_DOUBLE
  else if bool_decide (ty = "bool") then Some PARAMETER_BOOL
  else if bool_decide (ty = "string") then Some PARAMETER_STRING
  else if bool_decide (ty = "integer_array") then Some PARAMETER_INTEGER_ARRAY
  else if bool_decide (ty = "double_array") then Some PARAMETER_DOUBLE_ARRAY
  else if bool_decide (ty = "bool_array") then Some PARAMETER_BOOL_ARRAY
  else if bool_decide (ty = "string_array") then Some PARAMETER_STRING_ARRAY
  else None.

(** The ranges a call passes in its descriptor. *)
Definition call_integer_range (c : declare_call) : list (Range Z) :=
  match c with
  | CallInteger _ from_val to_val stp _ | CallIntegerArray _ from_val to_val stp _ =>
      [{| from_value := from_val; to_value := to_val; step := stp |}]
  | _ => []
  end.

Definition call_floating_point_range (c : declare_call) : list (Range double) :=
  match c with
  | CallDouble _ from_val to_val stp _ | CallDoubleArray _ from_val to_val stp _ =>
      [{| from_value := from_val; to_value := to_val; step := stp |}]
  | _ => []
  end.

End vocabulary.

(** ** A concrete runtime, for running the manager on examples

    Floats are rationals; numbers in text are decimal integer literals;
    callable 0 accepts every parameter, every other callable rejects, and
    neither touches the node; rclpy refuses to declare a name twice.  The
    module also holds the data of the examples. *)
Module Demo.
Definition parse_int (s : string) : result Z :=
  match DecimalString.NilZero.int_of_string s with
  | Some d => inr (Z.of_int d)
  | None => inl (ValueError ("invalid literal for int() with base 10: " +:+ s))
  end.

#[export] Instance float : PyFloat := {| double := QArith_base.Q |}.

#[export] Instance runtime : Runtime := {|
  int_of_str := parse_int;
  float_of_str := λ s, z ← parse_int s; mret (QArith_base.inject_Z z);
  int_of_float := λ q, inr (Z.quot (QArith_base.Qnum q) (Z.pos (QArith_base.Qden q)));
  float_of_int := λ z, inr (QArith_base.inject_Z z);
  str_other := λ _, "<object>";
  format_other := λ _, "<value>";
  call := λ f _ a, (bool_decide (f = 0%nat), a);
  declare_parameter_raises := λ n name _ _,
    if bool_decide (name ∈ declared_names (history n))
    then Some (OtherException ("Parameter already declared: " +:+ name))
    else None
|}.

(** A node with the variables [count], [label], [limit] and [flag], a
    validator [accept] (callable 0) and a validator [reject] (callable 1). *)
Definition node0 : Node :=
  {| attrs := <["count" := AValue (VInt 5)]>
              (<["label" := AValue (VStr "x")]>
              (<["limit" := AValue (VInt 5)]>
              (<["flag" := AValue (VBool true)]>
              (<["accept" := ACallable 0%nat]>
              (<["reject" := ACallable 1%nat]> ∅)))));
     history := [] |}.

Definition manager0 : PManager :=
  {| _node := node0; _params_data := ∅; _verbose := false |}.

Definition integer_record (default_val : Z) (ro var validator_name : string) : yaml :=
  YMap [("type", YStr "integer"); ("default_value", YInt default_val);
        ("min_value", YInt 0); ("max_value", YInt 10); ("step", YInt 1);
        ("description", YStr "A number."); ("constraints", YStr "");
        ("read_only", YStr ro); ("var_name", YStr var);
        ("validator", YStr validator_name)].

Definition bool_record (ro var validator_name : string) : yaml :=
  YMap [("type", YStr "bool"); ("default_value", YBool true);
        ("description", YStr "A flag."); ("constraints", YStr "");
        ("read_only", YStr ro); ("var_name", YStr var);
        ("validator", YStr validator_name)].

Definition string_record : yaml :=
  YMap [("type", YStr "string"); ("default_value", YStr "x");
        ("description", YStr "A text."); ("constraints", YStr "");
        ("read_only", YBool false); ("var_name", YStr "label")].

(** A parameters file: [limit] is read-only, [guarded] has the validator
    that rejects. *)
Definition params0 : list (string * yaml) :=
  [("limit", integer_record 5 "true" "limit" "");
   ("label", string_record);
   ("guarded", bool_record "false" "flag" "reject");
   ("count", integer_record 5 "false" "count" "accept")].

Definition doc0 : yaml := YMap [("params", YMap params0)].

(** The manager once [doc0] is loaded. *)
Definition manager1 : PManager :=
  (_parse_params_file "params.yaml" (Loaded doc0) manager0).2.

(** A parameters file with a record whose [read_only] text does not parse. *)
Definition params_bad : list (string * yaml) :=
  [("z_param", bool_record "false" "flag" "");
   ("m_param", bool_record "yes" "flag" "");
   ("a_param", integer_record 5 "false" "count" "")].

(** The call the record of [limit] leads to. *)
Definition limit_call : declare_call :=
  CallInteger 5 0 10 1
    {| c_desc := "A number."; c_constraints := ""; c_read_only := true;
       c_var_name := "limit"; c_validator := "" |}.

(** Updates. *)
Definition count_3 : RclpyParameter :=
  {| name := "count"; type_ := PARAMETER_INTEGER; value := VInt 3 |}.
Definition count_as_bool : RclpyParameter :=
  {| name := "count"; type_ := PARAMETER_BOOL; value := VBool true |}.
Definition label_y : RclpyParameter :=
  {| name := "label"; type_ := PARAMETER_STRING; value := VStr "y" |}.
Definition guarded_false : RclpyParameter :=
  {| name := "guarded"; type_ := PARAMETER_BOOL; value := VBool false |}.
Definition limit_7 : RclpyParameter :=
  {| name := "limit"; type_ := PARAMETER_INTEGER; value := VInt 7 |}.
Definition label_as_int : RclpyParameter :=
  {| name := "label"; type_ := PARAMETER_INTEGER; value := VInt 1 |}.
Definition unregistered : RclpyParameter :=
  {| name := "unregistered"; type_ := PARAMETER_DOUBLE; value := VNone |}.
(** A manager whose parameter [mode] has the attribute [accept] both as
    its validator and as its variable. *)
Definition manager_alias : PManager :=
  (_add_to_data "mode" PARAMETER_STRING "accept" "accept" manager0).2.

Definition mode_fast : RclpyParameter :=
  {| name := "mode"; type_ := PARAMETER_STRING; value := VStr "fast" |}.

(** The fields of the record of [limit]. *)
Definition limit_fields : list (string * yaml) :=
  [("type", YStr "integer"); ("default_value", YInt 5);
   ("min_value", YInt 0); ("max_value", YInt 10); ("step", YInt 1);
   ("description", YStr "A number."); ("constraints", YStr "");
   ("read_only", YStr "true"); ("var_name", YStr "limit");
   ("validator", YStr "")].

(** A document whose [params] is a list. *)
Definition doc_list : list (string * yaml) := [("params", YList [YStr "count"])].
End Demo.

(** ** The update callback *)
Section callback_properties.
Context `{Runtime}.
Implicit Types (self s : PManager) (p q : RclpyParameter).
Implicit Types (params pre post : list RclpyParameter) (p_data : param_data).

Lemma writes_app (h1 h2 : list event) : writes (h1 ++ h2) = writes h1 ++ writes h2.
Proof. apply omap_app. Qed.

(** The four ways through the body of the loop. *)
Lemma callback_item_undeclared self p :
  _params_data self !! name p = None → callback_item self p = (None, self).
Proof. unfold callback_item. by intros ->. Qed.

Lemma callback_item_type_mismatch self p p_data :
  _params_data self !! name p = Some p_data →
  type_ p ≠ type p_data →
  callback_item self p =
    (Some (failed (type_mismatch_msg (name p))),
     with_node (logger_error (type_mismatch_msg (name p)) (_node self)) self).
Proof. unfold callback_item. intros -> Hty. by rewrite bool_decide_true. Qed.

Lemma callback_item_rejected self p p_data n1 :
  _params_data self !! name p = Some p_data →
  type_ p = type p_data →
  validator_rejects p_data p (_node self) = (true, n1) →
  callback_item self p =
    (Some (failed (validation_failed_msg (name p))),
     with_node (logger_error (validation_failed_msg (name p)) n1) self).
Proof.
  unfold callback_item. intros -> Hty ->.
  rewrite bool_decide_false; [done | by intros []].
Qed.

Lemma callback_item_passed self p p_data n1 :
  _params_data self !! name p = Some p_data →
  type_ p = type p_data →
  validator_rejects p_data p (_node self) = (false, n1) →
  callback_item self p =
    (None,
     with_node (log_if_verbose (_verbose self) p (update_variable p_data p n1)) self).
Proof.
  unfold callback_item. intros -> Hty ->.
  rewrite bool_decide_false; [done | by intros []].
Qed.

(** Each way through the body, read backwards. *)
Lemma callback_item_inv self p o s' :
  callback_item self p = (o, s') →
  (_params_data self !! name p = None ∧ o = None ∧ s' = self) ∨
  ∃ p_data, _params_data self !! name p = Some p_data ∧
    ((type_ p ≠ type p_data ∧
      o = Some (failed (type_mismatch_msg (name p))) ∧
      s' = with_node (logger_error (type_mismatch_msg (name p)) (_node self)) self) ∨
     (type_ p = type p_data ∧ ∃ n1,
        (validator_rejects p_data p (_node self) = (true, n1) ∧
         o = Some (failed (validation_failed_msg (name p))) ∧
         s' = with_node (logger_error (validation_failed_msg (name p)) n1) self) ∨
        (validator_rejects p_data p (_node self) = (false, n1) ∧
         o = None ∧
         s' = with_node
                (log_if_verbose (_verbose self) p (update_variable p_data p n1)) self))).
Proof.
  destruct (_params_data self !! name p) as [p_data|] eqn:Hd.
  - intros Hitem. right. exists p_data. split; [done|].
    destruct (decide (type_ p = type p_data)) as [Hty|Hty].
    + right. split; [done|].
      destruct (validator_rejects p_data p (_node self)) as [[] n1] eqn:Hv; exists n1.
      * rewrite (callback_item_rejected _ _ _ _ Hd Hty Hv) in Hitem.
        left. by simplify_eq.
      * rewrite (callback_item_passed _ _ _ _ Hd Hty Hv) in Hitem.
        right. by simplify_eq.
    + left. rewrite (callback_item_type_mismatch _ _ _ Hd Hty) in Hitem.
      by simplify_eq.
  - intros Hitem. left. rewrite (callback_item_undeclared _ _ Hd) in Hitem.
    by simplify_eq.
Qed.

Lemma callback_item_unsuccessful self p r s' :
  callback_item self p = (Some r, s') → successful r = false.
Proof.
  intros Hitem. apply callback_item_inv in Hitem.
  destruct Hitem as [(_ & ? & _) | (d & _ & [(_ & ? & _) | (_ & n1 & [(_ & ? & _)|(_ & ? & _)])])];
    by simplify_eq.
Qed.

Lemma callback_item_store self p :
  _params_data (callback_item self p).2 = _params_data self.
Proof.
  destruct (callback_item self p) as [o s'] eqn:Hitem. apply callback_item_inv in Hitem.
  destruct Hitem as [(_ & _ & ->) | (d & _ & [(_ & _ & ->) | (_ & n1 & [(_ & _ & ->)|(_ & _ & ->)])])];
    done.
Qed.

(** The loop, unfolded once. *)
Lemma callback_nil self : _on_set_parameters_callback self [] = (accepted, self).
Proof. done. Qed.

Lemma callback_cons self p params :
  _on_set_parameters_callback self (p :: params) =
    match callback_item self p with
    | (Some r, s') => (r, s')
    | (None, s') => _on_set_parameters_callback s' params
    end.
Proof. done. Qed.

(** The result is the initial one, or an unsuccessful one. *)
Lemma callback_result self params :
  (_on_set_parameters_callback self params).1 = accepted ∨
  successful (_on_set_parameters_callback self params).1 = false.
Proof.
  revert self. induction params as [|p params IH]; intros self; [by left|].
  rewrite callback_cons. destruct (callback_item self p) as [[r|] s'] eqn:Hitem.
  - right. by eapply callback_item_unsuccessful.
  - apply IH.
Qed.

Lemma callback_successful self params s' r :
  _on_set_parameters_callback self params = (r, s') →
  successful r = true → r = accepted.
Proof.
  intros Hrun Hr. destruct (callback_result self params) as [Hres|Hres];
    rewrite Hrun in Hres; simpl in Hres; [done | congruence].
Qed.

(** A batch in two parts: the second part runs if the first rejects nothing. *)
Lemma callback_app self pre post :
  _on_set_parameters_callback self (pre ++ post) =
    let '(r, s1) := _on_set_parameters_callback self pre in
    if successful r then _on_set_parameters_callback s1 post else (r, s1).
Proof.
  revert self. induction pre as [|p pre IH]; intros self; [done|].
  rewrite <- app_comm_cons, !callback_cons.
  destruct (callback_item self p) as [[r|] s'] eqn:Hitem.
  - by rewrite (callback_item_unsuccessful _ _ _ _ Hitem).
  - apply IH.
Qed.

Lemma callback_app_accepted self pre post s1 :
  _on_set_parameters_callback self pre = (accepted, s1) →
  _on_set_parameters_callback self (pre ++ post) = _on_set_parameters_callback s1 post.
Proof. intros Hpre. by rewrite callback_app, Hpre. Qed.

Lemma callback_store self params :
  _params_data (_on_set_parameters_callback self params).2 = _params_data self.
Proof.
  revert self. induction params as [|p params IH]; intros self; [done|].
  rewrite callback_cons. pose proof (callback_item_store self p) as Hstore.
  destruct (callback_item self p) as [[r|] s']; simpl in *; [done|].
  by rewrite IH.
Qed.

Lemma callback_store_eq self params r s' :
  _on_set_parameters_callback self params = (r, s') →
  _params_data s' = _params_data self.
Proof. intros Hrun. by rewrite <- (callback_store self params), Hrun. Qed.

(** The validator writes no variable through [setattr]. *)
Lemma validator_rejects_writes p_data p (n n1 : Node) b :
  validator_rejects p_data p n = (b, n1) →
  writes (history n1) = writes (history n).
Proof.
  unfold validator_rejects, invoke.
  destruct (getattr n (validator p_data)) as [[v|f]|]; [by intros [= _ <-]| |by intros [= _ <-]].
  destruct (call f p (attrs n)) as [verdict attrs']. intros [= _ <-]. simpl.
  by rewrite writes_app, app_nil_r.
Qed.

Lemma log_if_verbose_attrs verbose p (n : Node) :
  attrs (log_if_verbose verbose p n) = attrs n.
Proof. by destruct verbose. Qed.

Lemma log_if_verbose_writes verbose p (n : Node) :
  writes (history (log_if_verbose verbose p n)) = writes (history n).
Proof. destruct verbose; [|done]. simpl. by rewrite writes_app, app_nil_r. Qed.

(** A batch is accepted as a whole, or there is a first item that the
    body of the loop returns at. *)
Lemma first_rejection self params :
  (∃ s', _on_set_parameters_callback self params = (accepted, s')) ∨
  (∃ pre p post s1 r s',
     params = pre ++ p :: post ∧
     _on_set_parameters_callback self pre = (accepted, s1) ∧
     callback_item s1 p = (Some r, s') ∧
     _on_set_parameters_callback self params = (r, s')).
Proof.
  revert self. induction params as [|p params IH]; intros self; [left; by eexists|].
  rewrite callback_cons. destruct (callback_item self p) as [[r|] s''] eqn:Hitem.
  - right. exists [], p, params, self, r, s''. by rewrite callback_nil.
  - destruct (IH s'') as [[s' Hrun] | (pre & q & post & s1 & r & s' & -> & Hpre & Hq & Hrun)].
    + left. by exists s'.
    + right. exists (p :: pre), q, post, s1, r, s'.
      by rewrite callback_cons, Hitem.
Qed.

(** In an accepted batch every declared item was applied. *)
Lemma applied_of_accepted self items s :
  _on_set_parameters_callback self items = (accepted, s) → applied self items.
Proof.
  intros Hrun pre q post p_data -> Hd.
  rewrite callback_app in Hrun.
  destruct (_on_set_parameters_callback self pre) as [r1 s1] eqn:Hpre.
  destruct (successful r1) eqn:Hr1; [|by simplify_eq].
  apply (callback_successful _ _ _ _ Hpre) in Hr1 as ->.
  pose proof (callback_store_eq _ _ _ _ Hpre) as Hstore.
  rewrite callback_cons in Hrun.
  destruct (callback_item s1 q) as [o s2] eqn:Hitem.
  pose proof Hitem as Hinv. apply callback_item_inv in Hinv. rewrite Hstore, Hd in Hinv.
  destruct Hinv as [(? & _) | (? & [= <-] & [(_ & -> & _) | (Hty & n1 & [(_ & -> & _)|(Hv & -> & ->)])])];
    [done | by simplify_eq | by simplify_eq |].
  exists s1, n1. split_and!; [done..|]. intros Hvar.
  eexists. split_and!.
  - by rewrite (callback_app_accepted _ _ _ _ Hpre), callback_cons, Hitem.
  - simpl. rewrite log_if_verbose_attrs. unfold update_variable. by rewrite Hvar.
  - simpl. rewrite log_if_verbose_writes. unfold update_variable. rewrite Hvar. simpl.
    by rewrite writes_app, (validator_rejects_writes _ _ _ _ _ Hv).
Qed.

(** C1.  A batch submitted to the update callback is either accepted as a
    whole, every declared item having passed the type check and the
    validator and having been written to its variable where the node has
    it; or it stops at the first rejected item: the items before it have
    been applied, the result is unsuccessful with a reason that names the
    rejected parameter, and no variable is written for the rejected item or
    for any item after it. *)
Theorem C1_short_circuit self params :
  let res := (_on_set_parameters_callback self params).1 in
  let self' := (_on_set_parameters_callback self params).2 in
  (res = accepted ∧ applied self params) ∨
  (∃ pre p post s1 p_data,
     params = pre ++ p :: post ∧
     _on_set_parameters_callback self pre = (accepted, s1) ∧
     applied self pre ∧
     _params_data self !! name p = Some p_data ∧
     ((type_ p ≠ type p_data ∧
       res = {| successful := false;
                reason := "Parameter '" +:+ name p +:+ "' type mismatch" |} ∧
       attrs (_node self') = attrs (_node s1))
      ∨
      (type_ p = type p_data ∧
       (validator_rejects p_data p (_node s1)).1 = true ∧
       res = {| successful := false;
                reason := "Parameter '" +:+ name p +:+ "' update validation failed" |} ∧
       attrs (_node self') = attrs (validator_rejects p_data p (_node s1)).2)) ∧
     writes (history (_node self')) = writes (history (_node s1))).
Proof.
  intros res self'. subst res self'.
  destruct (first_rejection self params)
    as [[s' Hrun] | (pre & p & post & s1 & r & s' & -> & Hpre & Hitem & Hrun)].
  - left. rewrite Hrun. split; [done|]. by eapply applied_of_accepted.
  - right. rewrite Hrun. simpl.
    pose proof (callback_store_eq _ _ _ _ Hpre) as Hstore.
    apply callback_item_inv in Hitem. rewrite Hstore in Hitem.
    destruct Hitem as [(_ & ? & _) | (p_data & Hd & Hcase)]; [done|].
    exists pre, p, post, s1, p_data.
    split_and!; [done | done | by eapply applied_of_accepted | done | |].
    + destruct Hcase as [(Hty & [= ->] & ->) | (Hty & n1 & [(Hv & [= ->] & ->)|(_ & ? & _)])];
        [left | right; rewrite Hv | done]; done.
    + destruct Hcase as [(Hty & _ & ->) | (Hty & n1 & [(Hv & _ & ->)|(_ & ? & _)])];
        [| |done]; simpl; rewrite writes_app, app_nil_r; [done|].
      by eapply validator_rejects_writes.
Qed.

(** The callback only adds to the history of the node. *)
Lemma validator_rejects_history p_data p (n n1 : Node) b :
  validator_rejects p_data p n = (b, n1) → ∃ tail, history n1 = history n ++ tail.
Proof.
  unfold validator_rejects, invoke.
  destruct (getattr n (validator p_data)) as [[v|f]|];
    [intros [= _ <-]; exists []; by rewrite app_nil_r |
    | intros [= _ <-]; exists []; by rewrite app_nil_r].
  destruct (call f p (attrs n)) as [verdict attrs']. intros [= _ <-]. by eexists.
Qed.

Lemma accepted_item_history verbose p_data p (n : Node) :
  ∃ tail, history (log_if_verbose verbose p (update_variable p_data p n)) = history n ++ tail.
Proof.
  unfold update_variable, log_if_verbose, _log_update, logger_info, record, setattr.
  destruct verbose, (hasattr n (var_name p_data)); simpl;
    rewrite <- ?app_assoc; eexists; try done. by rewrite app_nil_r.
Qed.

Lemma callback_item_history self p :
  ∃ tail, history (_node (callback_item self p).2) = history (_node self) ++ tail.
Proof.
  destruct (callback_item self p) as [o s'] eqn:Hitem. apply callback_item_inv in Hitem.
  destruct Hitem as [(_ & _ & ->) | (d & _ & [(_ & _ & ->) | (_ & n1 & [(Hv & _ & ->)|(Hv & _ & ->)])])];
    simpl.
  - exists []. by rewrite app_nil_r.
  - by eexists.
  - apply validator_rejects_history in Hv as [t ->]. rewrite <- app_assoc. by eexists.
  - apply validator_rejects_history in Hv as [t Ht].
    destruct (accepted_item_history (_verbose self) d p n1) as [t' ->].
    rewrite Ht, <- app_assoc. by eexists.
Qed.

Lemma callback_history self params :
  ∃ tail, history (_node (_on_set_parameters_callback self params).2) =
          history (_node self) ++ tail.
Proof.
  revert self. induction params as [|p params IH]; intros self.
  { exists []. by rewrite app_nil_r. }
  rewrite callback_cons. destruct (callback_item_history self p) as [t Ht].
  destruct (callback_item self p) as [[r|] s']; simpl in *; [by eexists|].
  destruct (IH s') as [t' ->]. rewrite Ht, <- app_assoc. by eexists.
Qed.

(** C2 (amended).  When the batch reaches a declared item whose type tag
    differs from the declared type, the callback returns an unsuccessful
    result whose reason is "Parameter '<name>' type mismatch", and stops
    there: whatever the later items are, the manager is as the earlier
    items left it, but for the error that is logged. *)
Theorem C2_type_mismatch self pre p post s1 p_data :
  _on_set_parameters_callback self pre = (accepted, s1) →
  _params_data self !! name p = Some p_data →
  type_ p ≠ type p_data →
  _on_set_parameters_callback self (pre ++ p :: post) =
    ({| successful := false;
        reason := "Parameter '" +:+ name p +:+ "' type mismatch" |},
     with_node
       (logger_error ("Parameter '" +:+ name p +:+ "' type mismatch") (_node s1)) s1).
Proof.
  intros Hpre Hd Hty.
  rewrite (callback_app_accepted _ _ _ _ Hpre), callback_cons.
  rewrite <- (callback_store_eq _ _ _ _ Hpre) in Hd.
  by rewrite (callback_item_type_mismatch _ _ _ Hd Hty).
Qed.

(** C3.  A batch of names that are not in the declaration store is
    accepted with an empty reason, and the manager and its node are left
    exactly as they were: nothing is written, called or logged. *)
Theorem C3_unknown_names self params :
  (∀ p, p ∈ params → _params_data self !! name p = None) →
  _on_set_parameters_callback self params = ({| successful := true; reason := "" |}, self).
Proof.
  induction params as [|p params IH]; intros Hnone; [done|].
  rewrite callback_cons, callback_item_undeclared by (apply Hnone; left).
  apply IH. intros q Hq. apply Hnone. by right.
Qed.

(** C4 (amended).  For a declared item of the declared type that the batch
    reaches: if the validator reference resolves to a callable of the node,
    the call of the validator on the parameter is the first thing the item
    adds to the history, before any write; if the validator's answer is
    falsy the callback returns an unsuccessful result whose reason is
    "Parameter '<name>' update validation failed" and stops; if the
    reference does not resolve to a callable (no such attribute, as for
    the empty reference on a node without an attribute of that name, or an
    attribute that is not callable) the item is accepted without a call. *)
Theorem C4_validator self pre p post s1 p_data :
  _on_set_parameters_callback self pre = (accepted, s1) →
  _params_data self !! name p = Some p_data →
  type_ p = type p_data →
  (∀ f, getattr (_node s1) (validator p_data) = Some (ACallable f) →
     (∃ tail, history (_node (_on_set_parameters_callback self (pre ++ p :: post)).2) =
              history (_node s1) ++ EvCall f p :: tail) ∧
     ((invoke f p (_node s1)).1 = false →
      _on_set_parameters_callback self (pre ++ p :: post) =
        ({| successful := false;
            reason := "Parameter '" +:+ name p +:+ "' update validation failed" |},
         with_node
           (logger_error ("Parameter '" +:+ name p +:+ "' update validation failed")
              (invoke f p (_node s1)).2) s1))) ∧
  ((getattr (_node s1) (validator p_data) = None ∨
    ∃ v, getattr (_node s1) (validator p_data) = Some (AValue v)) →
   _on_set_parameters_callback self (pre ++ [p]) =
     ({| successful := true; reason := "" |},
      with_node (log_if_verbose (_verbose s1) p (update_variable p_data p (_node s1))) s1)) ∧
  (validator p_data = "" → attrs (_node s1) !! "" = None →
   (_on_set_parameters_callback self (pre ++ [p])).1 = {| successful := true; reason := "" |}).
Proof.
  intros Hpre Hd Hty.
  rewrite <- (callback_store_eq _ _ _ _ Hpre) in Hd.
  assert (Hunresolved :
    getattr (_node s1) (validator p_data) = None ∨
    (∃ v, getattr (_node s1) (validator p_data) = Some (AValue v)) →
    _on_set_parameters_callback self (pre ++ [p]) =
      (accepted,
       with_node (log_if_verbose (_verbose s1) p (update_variable p_data p (_node s1))) s1)).
  { intros Hget. rewrite (callback_app_accepted _ _ _ _ Hpre), callback_cons.
    rewrite (callback_item_passed _ _ _ (_node s1) Hd Hty); [done|].
    unfold validator_rejects. by destruct Hget as [-> | [v ->]]. }
  split_and!; [|done|].
  - intros f Hf.
    rewrite (callback_app_accepted _ _ _ _ Hpre), callback_cons.
    assert (validator_rejects p_data p (_node s1) =
              (negb (invoke f p (_node s1)).1, (invoke f p (_node s1)).2)) as Hv.
    { unfold validator_rejects. rewrite Hf. by destruct (invoke f p (_node s1)). }
    assert (history (invoke f p (_node s1)).2 = history (_node s1) ++ [EvCall f p]) as Hh.
    { unfold invoke. by destruct (call f p (attrs (_node s1))). }
    destruct (invoke f p (_node s1)) as [[] n1] eqn:Hinv; simpl in *.
    + rewrite (callback_item_passed _ _ _ _ Hd Hty Hv). split; [|done].
      match goal with |- context [_on_set_parameters_callback ?s post] =>
        destruct (callback_history s post) as [t ->] end. simpl.
      destruct (accepted_item_history (_verbose s1) p_data p n1) as [t' ->].
      rewrite Hh, <- !app_assoc. by eexists.
    + rewrite (callback_item_rejected _ _ _ _ Hd Hty Hv). split; [|done].
      simpl. rewrite Hh, <- app_assoc. by eexists.
  - intros Hempty Hnone. rewrite Hunresolved; [done|].
    left. unfold getattr. by rewrite Hempty.
Qed.

(** C10.  The update callback leaves the declaration store of the manager
    as it was, whatever the batch and whether it is accepted or rejected: the
    store after the call is the store before it, so no entry is added,
    removed or modified. *)
Theorem C10_store_unchanged self params :
  _params_data (_on_set_parameters_callback self params).2 = _params_data self ∧
  (∀ n, _params_data (_on_set_parameters_callback self params).2 !! n =
        _params_data self !! n) ∧
  dom (_params_data (_on_set_parameters_callback self params).2) = dom (_params_data self).
Proof. by rewrite callback_store. Qed.
End callback_properties.

(** ** The declaration store *)
Section declaration_properties.
Context `{Runtime}.
Implicit Types (self s : PManager) (n : string) (call : declare_call).

Lemma add_to_data_lookup n ty var validator_name self :
  _params_data (_add_to_data n ty var validator_name self).2 !! n =
    Some {| type := ty; var_name := var; validator := validator_name |}.
Proof. simpl. apply lookup_insert_eq. Qed.

Lemma add_to_data_lookup_ne n n' ty var validator_name self :
  n ≠ n' →
  _params_data (_add_to_data n ty var validator_name self).2 !! n' =
    _params_data self !! n'.
Proof. intros Hne. simpl. by apply lookup_insert_ne. Qed.

(** What every declare method does: the entry is stored, then
    [declare_parameter] is called, and rclpy accepts or raises. *)
Lemma declare_unfold n ty var validator_name default_val descriptor self :
  (_add_to_data n ty var validator_name ;;
   node_declare_parameter n default_val descriptor) self =
    (match declare_parameter_raises (_node self) n default_val descriptor with
     | Some e => inl e
     | None => inr ()
     end,
     {| _node := record (EvDeclare n default_val descriptor) (_node self);
        _params_data :=
          <[n := {| type := ty; var_name := var; validator := validator_name |}]>
            (_params_data self);
        _verbose := _verbose self |}).
Proof.
  unfold mbind, M_bind, _add_to_data, node_declare_parameter, with_node. simpl.
  by destruct (declare_parameter_raises _ _ _ _).
Qed.

Lemma perform_unfold n call self :
  ∃ default_val descriptor,
    perform n call self =
      (match declare_parameter_raises (_node self) n default_val descriptor with
       | Some e => inl e
       | None => inr ()
       end,
       {| _node := record (EvDeclare n default_val descriptor) (_node self);
          _params_data := <[n := entry_of call]> (_params_data self);
          _verbose := _verbose self |}) ∧
    desc_name descriptor = n ∧
    desc_type descriptor = call_type call ∧
    read_only descriptor = c_read_only (call_common call).
Proof.
  destruct call; do 2 eexists; (split; [apply declare_unfold | done]).
Qed.

Lemma perform_store n call self :
  _params_data (perform n call self).2 = <[n := entry_of call]> (_params_data self).
Proof. by destruct (perform_unfold n call self) as (? & ? & -> & _). Qed.

Lemma perform_declared_names n call self :
  declared_names (history (_node (perform n call self).2)) =
    declared_names (history (_node self)) ++ [n].
Proof.
  destruct (perform_unfold n call self) as (? & ? & -> & _). simpl.
  unfold declared_names. by rewrite omap_app.
Qed.

Lemma perform_verbose n call self :
  _verbose (perform n call self).2 = _verbose self.
Proof. by destruct (perform_unfold n call self) as (? & ? & -> & _). Qed.

(** C5 (amended).  The read-only flag of a declaration is passed to
    rclpy in the descriptor and is not stored by the manager, and the
    update callback does not consult it: for a parameter declared with
    the flag set, an update of the declared type that the validator does
    not reject is accepted, and written to the variable if the node has
    it. *)
Theorem C5_read_only_not_enforced self n call s1 p :
  c_read_only (call_common call) = true →
  perform n call self = (inr (), s1) →
  name p = n →
  type_ p = call_type call →
  (validator_rejects (entry_of call) p (_node s1)).1 = false →
  (∃ default_val descriptor,
     EvDeclare n default_val descriptor ∈ history (_node s1) ∧
     read_only descriptor = true) ∧
  _params_data s1 !! n = Some (entry_of call) ∧
  (_on_set_parameters_callback s1 [p]).1 = {| successful := true; reason := "" |} ∧
  (hasattr (validator_rejects (entry_of call) p (_node s1)).2
     (c_var_name (call_common call)) = true →
   (c_var_name (call_common call), value p) ∈
     writes (history (_node (_on_set_parameters_callback s1 [p]).2))).
Proof.
  intros Hro Hperform Hname Hty Hv.
  destruct (perform_unfold n call self) as (dv & d & Hunfold & _ & _ & Hd).
  rewrite Hperform in Hunfold. injection Hunfold as _ ->.
  assert (_params_data
            {| _node := record (EvDeclare n dv d) (_node self);
               _params_data := <[n:=entry_of call]> (_params_data self);
               _verbose := _verbose self |} !! name p = Some (entry_of call)) as Hlookup.
  { rewrite Hname. apply lookup_insert_eq. }
  destruct (validator_rejects _ _ _) as [b n1] eqn:Hval in Hv |- *.
  simpl in Hv. subst b.
  split_and!.
  - exists dv, d. split; [|congruence]. simpl. apply elem_of_app. right. by left.
  - apply lookup_insert_eq.
  - by rewrite callback_cons, (callback_item_passed _ _ _ _ Hlookup Hty Hval).
  - intros Hvar.
    rewrite callback_cons, (callback_item_passed _ _ _ _ Hlookup Hty Hval).
    change (c_var_name (call_common call)) with (var_name (entry_of call)) in Hvar |- *.
    cbn [fst snd _node with_node callback_loop _on_set_parameters_callback] in Hvar |- *.
    rewrite log_if_verbose_writes. unfold update_variable.
    rewrite Hvar. cbn [history setattr]. rewrite writes_app. apply elem_of_app. right. by left.
Qed.

(** C6 (amended).  A declare operation on a name that is already in the
    declaration store is not rejected by the store: [_add_to_data] returns
    normally and replaces the entry of that name with the new type,
    variable and validator names, leaving the other entries and the node
    untouched; every declare method stores its entry in this way. *)
Theorem C6_redeclare_replaces self n ty var validator_name old :
  _params_data self !! n = Some old →
  (_add_to_data n ty var validator_name self).1 = inr () ∧
  _params_data (_add_to_data n ty var validator_name self).2 !! n =
    Some {| type := ty; var_name := var; validator := validator_name |} ∧
  (∀ n', n' ≠ n →
     _params_data (_add_to_data n ty var validator_name self).2 !! n' =
       _params_data self !! n') ∧
  _node (_add_to_data n ty var validator_name self).2 = _node self ∧
  (∀ call, _params_data (perform n call self).2 !! n = Some (entry_of call)).
Proof.
  intros _. split_and!; [done | apply add_to_data_lookup | | done |].
  - intros n' Hne. by apply add_to_data_lookup_ne.
  - intros call. rewrite perform_store. apply lookup_insert_eq.
Qed.
End declaration_properties.

(** ** The order of the bulk load *)
Section sorting_properties.
Context `{PyFloat}.
Implicit Types (l m : list (string * yaml)).

Lemma sorted_Permutation l : sorted l ≡ₚ l.
Proof. apply merge_sort_Permutation. Qed.

Lemma sorted_StronglySorted l : StronglySorted item_le (sorted l).
Proof. apply StronglySorted_merge_sort; apply _. Qed.

Lemma sorted_elem_of l x : x ∈ sorted l ↔ x ∈ l.
Proof. by rewrite sorted_Permutation. Qed.

Lemma sorted_keys_Permutation l : (sorted l).*1 ≡ₚ l.*1.
Proof. by rewrite sorted_Permutation. Qed.

(** In a dict, a key has one value. *)
Lemma NoDup_keys_value l k v1 v2 :
  NoDup l.*1 → (k, v1) ∈ l → (k, v2) ∈ l → v1 = v2.
Proof.
  induction l as [|[k' v'] l IH]; csimpl; [by intros _ ?%elem_of_nil|].
  intros [Hk' Hl]%NoDup_cons [Heq1|Hin1]%elem_of_cons [Heq2|Hin2]%elem_of_cons.
  - congruence.
  - injection Heq1 as -> ->. destruct Hk'. apply list_elem_of_fmap. by exists (k', v2).
  - injection Heq2 as -> ->. destruct Hk'. apply list_elem_of_fmap. by exists (k', v1).
  - by apply IH.
Qed.

(** The sorted list does not depend on the order the dict iterates in. *)
Lemma sorted_unique l1 l2 :
  NoDup l1.*1 → l1 ≡ₚ l2 → sorted l1 = sorted l2.
Proof.
  intros Hnodup Hperm.
  apply (StronglySorted_unique_strong item_le); [|apply sorted_StronglySorted..|].
  - intros [k1 v1] [k2 v2] Hx1 Hx2 Hle1 Hle2.
    apply (proj1 (sorted_elem_of _ _)) in Hx1, Hx2.
    unfold item_le in *. simpl in *.
    assert (k1 = k2) as -> by (by apply (anti_symm String.le)).
    rewrite <- Hperm in Hx2. f_equal. by eapply NoDup_keys_value.
  - by rewrite !sorted_Permutation.
Qed.

(** The names come out in strictly increasing order. *)
Lemma sorted_keys_increasing l :
  NoDup l.*1 →
  StronglySorted (λ k1 k2, String.le k1 k2 ∧ k1 ≠ k2) (sorted l).*1.
Proof.
  intros Hnodup. rewrite <- sorted_keys_Permutation in Hnodup.
  pose proof (sorted_StronglySorted l) as Hsorted.
  induction Hsorted as [|[k v] rest Hrest IH Hall]; csimpl in *; [constructor|].
  apply NoDup_cons in Hnodup as [Hk Hnodup].
  constructor; [by apply IH|].
  apply Forall_fmap, Forall_forall. intros [k' v'] Hin. simpl. split.
  - rewrite Forall_forall in Hall. by apply (Hall (k', v')).
  - intros ->. apply Hk. apply list_elem_of_fmap. by exists (k', v').
Qed.
End sorting_properties.

(** ** The bulk loader *)
Section loader_properties.
Context `{Runtime}.
Implicit Types (self s : PManager) (n : string) (values : yaml).
Implicit Types (params pre post : list (string * yaml)).

(** One turn of the loop: the arguments do not evaluate, or the call is
    made and rclpy raises, or the call is made and returns. *)
Lemma declare_record_parse_error n values e self :
  parse_record values = inl e →
  declare_record n values self = (inl (RuntimeError (parse_failure_msg n e)), self).
Proof.
  intros Hparse. unfold declare_record, try_except, mbind, M_bind, lift, raise.
  by rewrite Hparse.
Qed.

Lemma declare_record_call n values call self :
  parse_record values = inr call →
  declare_record n values self =
    match perform n call self with
    | (inl e, s') => (inl (RuntimeError (parse_failure_msg n e)), s')
    | (inr a, s') => (inr a, s')
    end.
Proof.
  intros Hparse. unfold declare_record, try_except, mbind, M_bind, lift, raise.
  rewrite Hparse. by destruct (perform n call self) as [[e|a] s'].
Qed.

Lemma declare_record_inv n values self r s' :
  declare_record n values self = (r, s') →
  (∃ e, parse_record values = inl e ∧
        r = inl (RuntimeError (parse_failure_msg n e)) ∧ s' = self) ∨
  (∃ call, parse_record values = inr call ∧ s' = (perform n call self).2 ∧
     (r = inr () ∨ ∃ e, r = inl (RuntimeError (parse_failure_msg n e)))).
Proof.
  destruct (parse_record values) as [e|call] eqn:Hparse.
  - rewrite (declare_record_parse_error _ _ _ _ Hparse). intros [= <- <-].
    left. by exists e.
  - rewrite (declare_record_call _ _ _ _ Hparse). intros Hrun.
    right. exists call. split; [done|].
    destruct (perform n call self) as [[e|[]] s'']; injection Hrun as <- <-;
      (split; [done|]); [right; by exists e | by left].
Qed.

Lemma declare_all_cons n values params self :
  declare_all ((n, values) :: params) self =
    match declare_record n values self with
    | (inl e, s') => (inl e, s')
    | (inr _, s') => declare_all params s'
    end.
Proof. done. Qed.

Lemma declare_all_app pre post self :
  declare_all (pre ++ post) self =
    match declare_all pre self with
    | (inl e, s') => (inl e, s')
    | (inr _, s') => declare_all post s'
    end.
Proof.
  revert self. induction pre as [|[n values] pre IH]; intros self; [done|].
  rewrite <- app_comm_cons, !declare_all_cons.
  destruct (declare_record n values self) as [[e|[]] s']; [done|]. apply IH.
Qed.

(** The load goes through, or stops at a first record. *)
Lemma first_failure params self :
  (∃ s', declare_all params self = (inr (), s')) ∨
  (∃ pre n values post s1 e s',
     params = pre ++ (n, values) :: post ∧
     declare_all pre self = (inr (), s1) ∧
     declare_record n values s1 = (inl e, s') ∧
     declare_all params self = (inl e, s')).
Proof.
  revert self. induction params as [|[n values] params IH]; intros self; [left; by eexists|].
  rewrite declare_all_cons.
  destruct (declare_record n values self) as [[e|[]] s''] eqn:Hrec.
  - right. by exists [], n, values, params, self, e, s''.
  - destruct (IH s'') as [[s' Hrun] | (pre & n' & v' & post & s1 & e & s' & -> & Hpre & Hfail & Hrun)].
    + left. by exists s'.
    + right. exists ((n, values) :: pre), n', v', post, s1, e, s'.
      by rewrite declare_all_cons, Hrec.
Qed.

(** What the records that went through left in the manager. *)
Lemma declare_all_done pre self s1 :
  declare_all pre self = (inr (), s1) →
  declared_names (history (_node s1)) = declared_names (history (_node self)) ++ pre.*1 ∧
  (∀ k, k ∉ pre.*1 → _params_data s1 !! k = _params_data self !! k) ∧
  (∀ k, k ∈ pre.*1 → is_Some (_params_data s1 !! k)) ∧
  Forall (λ kv, ∃ call, parse_record kv.2 = inr call) pre.
Proof.
  revert self. induction pre as [|[n values] pre IH]; intros self.
  { intros [= ->]. rewrite app_nil_r. split_and!; [done..| |done].
    by intros k ?%elem_of_nil. }
  rewrite declare_all_cons.
  destruct (declare_record n values self) as [[e|[]] s''] eqn:Hrec; [done|].
  intros (Hnames & Hother & Hsome & Hparsed)%IH.
  apply declare_record_inv in Hrec as [(e & _ & ? & _) | (call & Hparse & -> & _)]; [done|].
  csimpl. split_and!.
  - by rewrite Hnames, perform_declared_names, <- app_assoc.
  - intros k [Hk1 Hk2]%not_elem_of_cons.
    rewrite Hother, perform_store by done. by apply lookup_insert_ne.
  - intros k Hk. destruct (decide (k ∈ pre.*1)) as [Hin|Hnotin]; [by apply Hsome|].
    apply elem_of_cons in Hk as [->|?]; [|done].
    rewrite Hother, perform_store, lookup_insert_eq by done. by eexists.
  - constructor; [by exists call | done].
Qed.

(** Inversion of a sequence of evaluations that all went through. *)
Lemma bind_inr {A B} (r : result A) (k : A → result B) (b : B) :
  r ≫= k = inr b → ∃ a, r = inr a ∧ k a = inr b.
Proof. destruct r as [e|a]; [done|]. intros Hk. by exists a. Qed.

Lemma getitem_inr m key v :
  getitem (YMap m) key = inr v → dict_lookup key m = Some v.
Proof. unfold getitem. destruct (dict_lookup key m); by intros [= ->]. Qed.

Lemma getitem_missing m key :
  dict_lookup key m = None → getitem (YMap m) key = inl (KeyError key).
Proof. unfold getitem. by intros ->. Qed.

Lemma getitem_present m key v :
  dict_lookup key m = Some v → getitem (YMap m) key = inr v.
Proof. unfold getitem. by intros ->. Qed.

Lemma parse_bool_str_raises w :
  w ∉ bool_texts →
  _parse_bool_str w = inl (ValueError ("Unknown boolean text representation: " +:+ w)).
Proof.
  intros Hw. unfold _parse_bool_str.
  rewrite !bool_decide_false; [done|intros ->; apply Hw; unfold bool_texts; by repeat constructor..].
Qed.

Lemma parse_bool_str_inr w b : _parse_bool_str w = inr b → w ∈ bool_texts.
Proof.
  intros Hparse. destruct (decide (w ∈ bool_texts)) as [|Hw]; [done|].
  by rewrite (parse_bool_str_raises _ Hw) in Hparse.
Qed.

Lemma field_str_inr m key x :
  field_str (YMap m) key = inr x → is_Some (dict_lookup key m).
Proof. intros (v & ?%getitem_inr & _)%bind_inr. by exists v. Qed.

Lemma field_int_inr m key x :
  field_int (YMap m) key = inr x → is_Some (dict_lookup key m).
Proof. intros (v & ?%getitem_inr & _)%bind_inr. by exists v. Qed.

Lemma field_float_inr m key x :
  field_float (YMap m) key = inr x → is_Some (dict_lookup key m).
Proof. intros (v & ?%getitem_inr & _)%bind_inr. by exists v. Qed.

Lemma field_list_inr m key l :
  field_list (YMap m) key = inr l →
  ∃ v, dict_lookup key m = Some v ∧ py_list v = inr l.
Proof. intros (v & ?%getitem_inr & ?)%bind_inr. by exists v. Qed.

Lemma field_bool_inr m key b :
  field_bool (YMap m) key = inr b →
  ∃ v, dict_lookup key m = Some v ∧ py_str v ∈ bool_texts.
Proof. intros (v & ?%getitem_inr & ?%parse_bool_str_inr)%bind_inr. by exists v. Qed.

Lemma common_fields_inr m c :
  common_fields (YMap m) = inr c →
  is_Some (dict_lookup "description" m) ∧
  is_Some (dict_lookup "constraints" m) ∧
  ∃ v, dict_lookup "read_only" m = Some v ∧ py_str v ∈ bool_texts.
Proof.
  unfold common_fields.
  intros (? & ?%field_str_inr & (? & ?%field_str_inr & (? & ?%field_bool_inr & _)%bind_inr)%bind_inr)%bind_inr.
  done.
Qed.

Lemma mapM_parse_bool_inr (elems : list yaml) bs :
  mapM (λ val, _parse_bool_str (py_str val)) elems = inr bs →
  ∀ x, x ∈ elems → py_str x ∈ bool_texts.
Proof.
  revert bs. induction elems as [|y elems IH]; intros bs; [by intros _ x ?%elem_of_nil|].
  cbn [mapM]. intros (b & Hb%parse_bool_str_inr & (bs' & Hbs & _)%bind_inr)%bind_inr.
  intros x [->|Hx]%elem_of_cons; [done|]. by eapply IH.
Qed.

Ltac invert_binds H :=
  repeat (apply bind_inr in H as (? & ? & H)).

Ltac field_facts :=
  repeat match goal with
  | H : field_int (YMap _) _ = inr _ |- _ => apply field_int_inr in H
  | H : field_float (YMap _) _ = inr _ |- _ => apply field_float_inr in H
  | H : field_str (YMap _) _ = inr _ |- _ => apply field_str_inr in H
  | H : field_bool (YMap _) _ = inr _ |- _ => apply field_bool_inr in H as (? & ? & ?)
  | H : field_list (YMap _) _ = inr _ |- _ => apply field_list_inr in H as (? & ? & ?)
  | H : common_fields (YMap _) = inr _ |- _ => apply common_fields_inr in H as (? & ? & ? & ? & ?)
  end.

Ltac elem_of_cases H :=
  repeat (apply elem_of_cons in H as [H|H]); try (by apply elem_of_nil in H).

(** A record whose arguments all evaluate has a supported type tag, every
    required field of that type, and boolean texts that parse. *)
Lemma parse_record_inr m call :
  parse_record (YMap m) = inr call →
  ∃ ty, dict_lookup "type" m = Some (YStr ty) ∧
    ty ∈ supported_types ∧
    (∀ key, key ∈ required_fields ty → is_Some (dict_lookup key m)) ∧
    (∃ v, dict_lookup "read_only" m = Some v ∧ py_str v ∈ bool_texts) ∧
    (ty = "bool" →
     ∃ v, dict_lookup "default_value" m = Some v ∧ py_str v ∈ bool_texts) ∧
    (ty = "bool_array" →
     ∃ v elems, dict_lookup "default_value" m = Some v ∧ py_list v = inr elems ∧
       ∀ x, x ∈ elems → py_str x ∈ bool_texts).
Proof.
  unfold parse_record. intros (ty & Hty%getitem_inr & Hparse)%bind_inr.
  destruct ty as [| | | |ty| |]; try done.
  cbn [eq_str] in Hparse.
  repeat case_bool_decide; subst; [..|done]; invert_binds Hparse; field_facts.
  all: eexists; split; [done|]; split; [unfold supported_types; by repeat constructor|].
  all: split;
    [intros key Hkey; unfold required_fields, numeric_types in Hkey;
     case_bool_decide as Hnum;
     try (exfalso; apply Hnum; by repeat constructor);
     try (exfalso; by elem_of_cases Hnum);
     simpl in Hkey; elem_of_cases Hkey; subst; eauto|].
  all: split; [eauto|].
  all: split; intros Heq; try done.
  - by eauto.
  - do 2 eexists. split_and!; [done..|]. by eapply mapM_parse_bool_inr.
Qed.

(** The arguments of a malformed record do not evaluate. *)
Lemma malformed_raises values :
  malformed values → ∃ e, parse_record values = inl e.
Proof.
  intros Hmal. destruct (parse_record values) as [e|call] eqn:Hparse; [by exists e|].
  exfalso. destruct Hmal as [m Hnone | m ty key Hty' Hkey Hnone | m v Hro' Hbad
                            | m v Hty' Hdv Hbad | m v elems x Hty' Hdv Hlist Hx Hbad
                            | m ty Hty' Hunsupported];
    apply parse_record_inr in Hparse
      as (ty0 & Hty & Hsup & Hreq & (v0 & Hro & Htext) & Hbool & Harr).
  - congruence.
  - assert (ty0 = ty) as -> by congruence.
    destruct (Hreq key Hkey) as [? ?]. congruence.
  - assert (v0 = v) as -> by congruence. done.
  - assert (ty0 = "bool") as -> by congruence.
    destruct (Hbool eq_refl) as (v1 & Hdv1 & Htext1).
    assert (v1 = v) as -> by congruence. done.
  - assert (ty0 = "bool_array") as -> by congruence.
    destruct (Harr eq_refl) as (v1 & elems1 & Hdv1 & Hlist1 & Hall).
    assert (v1 = v) as -> by congruence.
    assert (elems1 = elems) as -> by congruence. by apply Hbad, Hall.
  - apply (Hunsupported ty0 Hsup). congruence.
Qed.

(** The loader on a document with a [params] mapping. *)
Lemma parse_params_file_loaded params_file top m self :
  dict_lookup "params" top = Some (YMap m) →
  _parse_params_file params_file (Loaded (YMap top)) self = declare_all (sorted m) self.
Proof.
  intros Hparams. unfold _parse_params_file, mbind, M_bind, lift. simpl.
  rewrite Hparams. by rewrite bool_decide_true by by eexists.
Qed.

(** The names declared by a run of the loop: a prefix of the names in the
    order of the list, all of them when the run returns. *)
Lemma declare_all_names params self :
  ∃ k, declared_names (history (_node (declare_all params self).2)) =
         declared_names (history (_node self)) ++ take k params.*1 ∧
       ((declare_all params self).1 = inr () → k = length params).
Proof.
  destruct (first_failure params self)
    as [[s' Hrun] | (pre & n & v & post & s1 & e & s' & -> & Hpre & Hfail & Hrun)];
    rewrite Hrun; simpl.
  - exists (length params). split; [|done].
    apply declare_all_done in Hrun as (-> & _).
    by rewrite take_ge by (by rewrite length_fmap).
  - apply declare_all_done in Hpre as (Hnames & _).
    apply declare_record_inv in Hfail
      as [(e0 & _ & _ & ->) | (call & _ & -> & _)].
    + exists (length pre). split; [|done].
      rewrite Hnames, fmap_app. f_equal.
      by rewrite take_app_length' by (by rewrite length_fmap).
    + exists (length pre + 1)%nat. split; [|done].
      rewrite perform_declared_names, Hnames, fmap_app, <- app_assoc. f_equal.
      rewrite (take_app_add' _ _ _ 1) by (by rewrite length_fmap). done.
Qed.

(** C7.  The bulk loader declares the parameters in the lexicographic
    order of their names, whatever order the input mapping iterates in: the
    names passed to [declare_parameter] are a prefix of the sorted names,
    all of them when the load returns; the sorted names are strictly
    increasing and are the names of the mapping; a mapping with the same
    items in another order gives the same run; and for the keys [z_param]
    and [a_param], in either order, [a_param] comes first. *)
Theorem C7_sorted_order params_file top m self :
  dict_lookup "params" top = Some (YMap m) →
  NoDup m.*1 →
  (∃ k, declared_names
          (history (_node (_parse_params_file params_file (Loaded (YMap top)) self).2)) =
        declared_names (history (_node self)) ++ take k (sorted m).*1 ∧
        ((_parse_params_file params_file (Loaded (YMap top)) self).1 = inr () →
         k = length m)) ∧
  StronglySorted (λ k1 k2, String.le k1 k2 ∧ k1 ≠ k2) (sorted m).*1 ∧
  (sorted m).*1 ≡ₚ m.*1 ∧
  (∀ top' m',
     dict_lookup "params" top' = Some (YMap m') → m' ≡ₚ m →
     _parse_params_file params_file (Loaded (YMap top')) self =
       _parse_params_file params_file (Loaded (YMap top)) self) ∧
  (∀ vz va : yaml,
     sorted [("z_param", vz); ("a_param", va)] = [("a_param", va); ("z_param", vz)] ∧
     sorted [("a_param", va); ("z_param", vz)] = [("a_param", va); ("z_param", vz)]).
Proof.
  intros Hparams Hnodup. rewrite (parse_params_file_loaded _ _ _ _ Hparams).
  split_and!.
  - destruct (declare_all_names (sorted m) self) as (k & Hnames & Hall).
    exists k. split; [done|]. intros Hok. rewrite (Hall Hok).
    by rewrite sorted_Permutation.
  - by apply sorted_keys_increasing.
  - apply sorted_keys_Permutation.
  - intros top' m' Hparams' Hperm.
    rewrite (parse_params_file_loaded _ _ _ _ Hparams').
    by rewrite (sorted_unique m m') by done.
  - done.
Qed.

(** C8.  When the input mapping holds a malformed record, the bulk load
    raises a [RuntimeError] at the first record (in sorted order) that
    fails, and the message names that record's parameter; the malformed
    record is that record or comes after it.  The entries of the names after
    the failing record are as they were before the load, the records before
    it stay declared, and when the failing record did not parse the manager
    is exactly as the earlier records left it. *)
Theorem C8_load_aborts params_file top m self n values :
  dict_lookup "params" top = Some (YMap m) →
  NoDup m.*1 →
  (n, values) ∈ m →
  malformed values →
  ∃ pre n' values' post e s1,
    sorted m = pre ++ (n', values') :: post ∧
    declare_all pre self = (inr (), s1) ∧
    (_parse_params_file params_file (Loaded (YMap top)) self).1 =
      inl (RuntimeError
             ("Failed to parse configuration of parameter " +:+ n' +:+ ": " +:+ exn_str e)) ∧
    ((n', values') = (n, values) ∨ (n, values) ∈ post) ∧
    (∀ k, k ∈ post.*1 →
       _params_data (_parse_params_file params_file (Loaded (YMap top)) self).2 !! k =
         _params_data self !! k) ∧
    (∀ k, k ∈ pre.*1 →
       is_Some (_params_data (_parse_params_file params_file (Loaded (YMap top)) self).2 !! k)) ∧
    (∃ tail,
       declared_names
         (history (_node (_parse_params_file params_file (Loaded (YMap top)) self).2)) =
         declared_names (history (_node self)) ++ pre.*1 ++ tail ∧
       (tail = [] ∨ tail = [n'])) ∧
    ((∃ e0, parse_record values' = inl e0) →
     (_parse_params_file params_file (Loaded (YMap top)) self).2 = s1).
Proof.
  intros Hparams Hnodup Hin Hmal. rewrite (parse_params_file_loaded _ _ _ _ Hparams).
  destruct (malformed_raises _ Hmal) as [e0 Hraises].
  apply sorted_elem_of in Hin.
  assert (NoDup (sorted m).*1) as Hnodup' by (by rewrite sorted_keys_Permutation).
  destruct (first_failure (sorted m) self)
    as [[s' Hrun] | (pre & n' & v' & post & s1 & e & s' & Hsplit & Hpre & Hfail & Hrun)].
  { apply declare_all_done in Hrun as (_ & _ & _ & Hparsed).
    rewrite Forall_forall in Hparsed. destruct (Hparsed _ Hin) as [call Hcall].
    simpl in Hcall. congruence. }
  rewrite Hsplit in Hin, Hnodup'. rewrite Hrun. simpl.
  pose proof Hpre as Hdone.
  apply declare_all_done in Hdone as (Hnames & Hother & Hsome & Hparsed).
  rewrite fmap_app, fmap_cons in Hnodup'.
  apply NoDup_app in Hnodup' as (_ & Hdisjoint & [Hn' _]%NoDup_cons).
  assert (∀ k, k ∈ post.*1 → (k ∉ pre.*1) ∧ k ≠ n') as Hlater.
  { intros k Hk. split.
    - intros Hkpre. apply (Hdisjoint k Hkpre). by right.
    - by intros ->. }
  assert ((n', v') = (n, values) ∨ (n, values) ∈ post) as Hwhere.
  { apply elem_of_app in Hin as [Hinpre|Hin]; [|by apply elem_of_cons in Hin as [->|?]; eauto].
    exfalso. rewrite Forall_forall in Hparsed.
    destruct (Hparsed _ Hinpre) as [call Hcall]. simpl in Hcall. congruence. }
  apply declare_record_inv in Hfail
    as [(e1 & Hparse & [= ->] & ->) | (call & Hparse & -> & [?|[e1 [= ->]]])]; [|done|].
  - exists pre, n', v', post, e1, s1. split_and!; [done..| | |exists []|done].
    + intros k Hk. apply Hother. by apply Hlater.
    + done.
    + rewrite app_nil_r. by split; [|left].
  - exists pre, n', v', post, e1, s1. split_and!; [done..| | |exists [n']|].
    + intros k Hk. destruct (Hlater k Hk) as [Hk1 Hk2].
      rewrite perform_store, lookup_insert_ne by done. by apply Hother.
    + intros k Hk. rewrite perform_store.
      destruct (decide (n' = k)) as [->|Hne]; [rewrite lookup_insert_eq; by eexists|].
      rewrite lookup_insert_ne by done. by apply Hsome.
    + rewrite perform_declared_names, Hnames, <- app_assoc. by split; [|right].
    + intros [e2 He2]. congruence.
Qed.

(** C9.  The boolean-text parser maps "true" and "True" to true, "false"
    and "False" to false, and raises a [ValueError] on every other text;
    in the bulk load, a record whose [read_only] text is not one of the
    four makes the loader raise for that record, with a message that names
    the parameter, and for a string record that is otherwise complete the
    message carries the parser's own text. *)
Theorem C9_parse_bool_str :
  _parse_bool_str "true" = inr true ∧
  _parse_bool_str "True" = inr true ∧
  _parse_bool_str "false" = inr false ∧
  _parse_bool_str "False" = inr false ∧
  (∀ word, word ∉ ["true"; "True"; "false"; "False"] →
     _parse_bool_str word =
       inl (ValueError ("Unknown boolean text representation: " +:+ word))) ∧
  (∀ n m v self,
     dict_lookup "read_only" m = Some v →
     py_str v ∉ ["true"; "True"; "false"; "False"] →
     ∃ e, declare_record n (YMap m) self =
            (inl (RuntimeError
                    ("Failed to parse configuration of parameter " +:+ n +:+ ": "
                     +:+ exn_str e)), self)) ∧
  (∀ n m v dv desc constraints self,
     dict_lookup "type" m = Some (YStr "string") →
     dict_lookup "default_value" m = Some dv →
     dict_lookup "description" m = Some desc →
     dict_lookup "constraints" m = Some constraints →
     dict_lookup "read_only" m = Some v →
     py_str v ∉ ["true"; "True"; "false"; "False"] →
     declare_record n (YMap m) self =
       (inl (RuntimeError
               ("Failed to parse configuration of parameter " +:+ n +:+ ": "
                +:+ "Unknown boolean text representation: " +:+ py_str v)), self)).
Proof.
  split_and!; [done..| | |].
  - apply parse_bool_str_raises.
  - intros n m v self Hro Hbad.
    destruct (malformed_raises (YMap m) (bad_read_only m v Hro Hbad)) as [e He].
    exists e. by apply declare_record_parse_error.
  - intros n m v dv desc constraints self Hty Hdv Hdesc Hcons Hro Hbad.
    rewrite (declare_record_parse_error n (YMap m)
               (ValueError ("Unknown boolean text representation: " +:+ py_str v))); [done|].
    unfold parse_record, common_fields, field_str, field_bool.
    rewrite (getitem_present _ _ _ Hty), (getitem_present _ _ _ Hdv),
      (getitem_present _ _ _ Hdesc), (getitem_present _ _ _ Hcons),
      (getitem_present _ _ _ Hro).
    cbn. by rewrite (parse_bool_str_raises _ Hbad).
Qed.
End loader_properties.


(** ** More on the update callback *)
Section callback_more.
Context `{Runtime}.
Implicit Types (self s : PManager) (p q : RclpyParameter).
Implicit Types (params pre post : list RclpyParameter) (p_data : param_data).

Lemma logged_app lvl (h1 h2 : list event) :
  logged lvl (h1 ++ h2) = logged lvl h1 ++ logged lvl h2.
Proof. apply omap_app. Qed.

Lemma without_info_app (h1 h2 : list event) :
  without_info (h1 ++ h2) = without_info h1 ++ without_info h2.
Proof. apply omap_app. Qed.

Lemma calls_app (h1 h2 : list event) : calls (h1 ++ h2) = calls h1 ++ calls h2.
Proof. apply omap_app. Qed.


Lemma declared_item self p :
  declared (callback_item self p).2 = declared self.
Proof.
  unfold declared. by rewrite callback_item_store.
Qed.

(** The validator logs nothing. *)
Lemma validator_rejects_logged lvl p_data p (n n1 : Node) b :
  validator_rejects p_data p n = (b, n1) →
  logged lvl (history n1) = logged lvl (history n).
Proof.
  unfold validator_rejects, invoke.
  destruct (getattr n (validator p_data)) as [[v|f]|]; [by intros [= _ <-]| |by intros [= _ <-]].
  destruct (call f p (attrs n)) as [verdict attrs']. intros [= _ <-]. simpl.
  by rewrite logged_app, app_nil_r.
Qed.

(** What one turn of the loop logs. *)
Lemma callback_item_logged self p :
  logged Error (history (_node (callback_item self p).2)) =
    logged Error (history (_node self)) ++
    match (callback_item self p).1 with Some r => [reason r] | None => [] end ∧
  logged Fatal (history (_node (callback_item self p).2)) =
    logged Fatal (history (_node self)) ∧
  logged Info (history (_node (callback_item self p).2)) =
    logged Info (history (_node self)) ++
    match (callback_item self p).1 with
    | Some _ => []
    | None => if _verbose self && declared self p then [log_update_msg p] else []
    end.
Proof.
  destruct (callback_item self p) as [o s'] eqn:Hitem. apply callback_item_inv in Hitem.
  unfold declared.
  destruct Hitem as [(Hd & -> & ->) | (d & Hd & [(_ & -> & ->) | (_ & n1 & [(Hv & -> & ->)|(Hv & -> & ->)])])];
    rewrite Hd; simpl.
  - by rewrite andb_false_r, !app_nil_r.
  - by rewrite !logged_app, !app_nil_r.
  - rewrite !logged_app, !(validator_rejects_logged _ _ _ _ _ _ Hv). simpl.
    by rewrite !app_nil_r.
  - rewrite andb_true_r.
    unfold log_if_verbose, _log_update, logger_info, record, update_variable, setattr.
    destruct (_verbose self), (hasattr n1 (var_name d)); simpl;
      rewrite ?logged_app, !(validator_rejects_logged _ _ _ _ _ _ Hv); simpl;
      by rewrite ?app_nil_r.
Qed.

(** X1.  A batch in two parts: the callback on the whole batch is the
    callback on the first part, followed, if the first part is accepted, by
    the callback on the second part in the manager the first part left. *)
Theorem X1_callback_concat self pre post :
  _on_set_parameters_callback self (pre ++ post) =
    if successful (_on_set_parameters_callback self pre).1
    then _on_set_parameters_callback (_on_set_parameters_callback self pre).2 post
    else _on_set_parameters_callback self pre.
Proof.
  rewrite callback_app. by destruct (_on_set_parameters_callback self pre) as [r s1].
Qed.

(** X2.  The items whose names are not in the store can be removed from a
    batch: the result and the manager after the call are the same. *)
Theorem X2_undeclared_transparent self params :
  _on_set_parameters_callback self (filter (λ p, declared self p) params) =
    _on_set_parameters_callback self params.
Proof.
  revert self. induction params as [|p params IH]; intros self; [done|].
  rewrite filter_cons. destruct (decide (declared self p)) as [Hd|Hd].
  - rewrite !callback_cons. pose proof (declared_item self p) as Hsame.
    destruct (callback_item self p) as [[r|] s']; simpl in *; [done|].
    rewrite <- Hsame. apply IH.
  - rewrite callback_cons, callback_item_undeclared; [apply IH|].
    unfold declared in Hd. rewrite bool_decide_spec in Hd.
    by apply eq_None_not_Some.
Qed.

(** X3.  The callback logs an error exactly when it rejects, once, and
    the line is the reason of the result; it logs nothing at level fatal. *)
Theorem X3_error_logged self params :
  logged Error (history (_node (_on_set_parameters_callback self params).2)) =
    logged Error (history (_node self)) ++
    (if successful (_on_set_parameters_callback self params).1 then []
     else [reason (_on_set_parameters_callback self params).1]) ∧
  logged Fatal (history (_node (_on_set_parameters_callback self params).2)) =
    logged Fatal (history (_node self)).
Proof.
  revert self. induction params as [|p params IH]; intros self.
  { simpl. by rewrite app_nil_r. }
  rewrite callback_cons.
  destruct (callback_item_logged self p) as (Herr & Hfatal & _).
  destruct (callback_item self p) as [[r|] s'] eqn:Hitem; simpl in *.
  - by rewrite (callback_item_unsuccessful _ _ _ _ Hitem).
  - destruct (IH s') as [-> ->]. by rewrite Herr, Hfatal, app_nil_r.
Qed.


(** One turn of the loop on two managers that differ in the verbosity flag
    and in the lines logged at level info. *)
Lemma callback_item_indep s s' p :
  _params_data s = _params_data s' →
  attrs (_node s) = attrs (_node s') →
  without_info (history (_node s)) = without_info (history (_node s')) →
  (callback_item s p).1 = (callback_item s' p).1 ∧
  _params_data (callback_item s p).2 = _params_data (callback_item s' p).2 ∧
  attrs (_node (callback_item s p).2) = attrs (_node (callback_item s' p).2) ∧
  without_info (history (_node (callback_item s p).2)) =
    without_info (history (_node (callback_item s' p).2)).
Proof.
  intros Hstore Hattrs Hhistory. unfold callback_item. rewrite Hstore.
  destruct (_params_data s' !! name p) as [d|]; [|done].
  case_bool_decide; simpl.
  { by rewrite !without_info_app, Hhistory. }
  unfold validator_rejects, getattr, invoke. rewrite Hattrs.
  assert (∀ n n' : Node, ∀ v v',
            attrs n = attrs n' →
            without_info (history n) = without_info (history n') →
            attrs (log_if_verbose v p (update_variable d p n)) =
              attrs (log_if_verbose v' p (update_variable d p n')) ∧
            without_info (history (log_if_verbose v p (update_variable d p n))) =
              without_info (history (log_if_verbose v' p (update_variable d p n')))) as Hpassed.
  { intros n n' v v' Ha Hh.
    unfold log_if_verbose, _log_update, logger_info, record, update_variable, hasattr, setattr.
    rewrite Ha. destruct v, v', (bool_decide (is_Some (attrs n' !! var_name d))); simpl;
      rewrite ?without_info_app, ?Ha, ?Hh; simpl; by rewrite ?app_nil_r. }
  destruct (attrs (_node s') !! validator d) as [[v|f]|]; simpl.
  - split_and!; [done..| |]; by apply Hpassed.
  - destruct (call f p (attrs (_node s'))) as [[] attrs'] eqn:Hcall; simpl.
    + split_and!; [done..| |]; apply Hpassed; simpl;
        by rewrite ?without_info_app, ?Hhistory.
    + by rewrite !without_info_app, Hhistory.
  - split_and!; [done..| |]; by apply Hpassed.
Qed.

Lemma callback_indep s s' params :
  _params_data s = _params_data s' →
  attrs (_node s) = attrs (_node s') →
  without_info (history (_node s)) = without_info (history (_node s')) →
  (_on_set_parameters_callback s params).1 = (_on_set_parameters_callback s' params).1 ∧
  _params_data (_on_set_parameters_callback s params).2 =
    _params_data (_on_set_parameters_callback s' params).2 ∧
  attrs (_node (_on_set_parameters_callback s params).2) =
    attrs (_node (_on_set_parameters_callback s' params).2) ∧
  without_info (history (_node (_on_set_parameters_callback s params).2)) =
    without_info (history (_node (_on_set_parameters_callback s' params).2)).
Proof.
  revert s s'. induction params as [|p params IH]; intros s s' Hstore Hattrs Hhistory; [done|].
  rewrite !callback_cons.
  destruct (callback_item_indep s s' p Hstore Hattrs Hhistory) as (Ho & Hst & Hat & Hh).
  destruct (callback_item s p) as [o t], (callback_item s' p) as [o' t']. simpl in *. subst o'.
  destruct o as [r|]; [done|]. by apply IH.
Qed.

(** X5.  The verbosity flag changes nothing but the lines logged at level
    info: with either flag the callback returns the same result, and leaves
    the same store, the same attributes on the node and, apart from those
    lines, the same history. *)
Theorem X5_verbosity_only_logs verbose self params :
  (_on_set_parameters_callback (with_verbose verbose self) params).1 =
    (_on_set_parameters_callback self params).1 ∧
  _params_data (_on_set_parameters_callback (with_verbose verbose self) params).2 =
    _params_data (_on_set_parameters_callback self params).2 ∧
  attrs (_node (_on_set_parameters_callback (with_verbose verbose self) params).2) =
    attrs (_node (_on_set_parameters_callback self params).2) ∧
  without_info (history (_node (_on_set_parameters_callback (with_verbose verbose self) params).2)) =
    without_info (history (_node (_on_set_parameters_callback self params).2)).
Proof. by apply callback_indep. Qed.

(** X6.  When the variable of a declaration is the attribute that holds
    its validator, an accepted update overwrites the validator with the
    value: from then on the reference resolves to a value that is not
    callable, and updates of that parameter with the declared type are
    accepted without any validator call. *)
Theorem X6_validator_overwritten self p p_data f attrs' :
  _params_data self !! name p = Some p_data →
  type_ p = type p_data →
  var_name p_data = validator p_data →
  getattr (_node self) (validator p_data) = Some (ACallable f) →
  call f p (attrs (_node self)) = (true, attrs') →
  is_Some (attrs' !! var_name p_data) →
  (_on_set_parameters_callback self [p]).1 = accepted ∧
  getattr (_node (_on_set_parameters_callback self [p]).2) (validator p_data) =
    Some (AValue (value p)) ∧
  ∀ q, name q = name p → type_ q = type p_data →
    (_on_set_parameters_callback (_on_set_parameters_callback self [p]).2 [q]).1 = accepted ∧
    calls (history (_node (_on_set_parameters_callback
                             (_on_set_parameters_callback self [p]).2 [q]).2)) =
      calls (history (_node (_on_set_parameters_callback self [p]).2)).
Proof.
  intros Hd Hty Halias Hget Hcall Hvar.
  assert (validator_rejects p_data p (_node self) =
            (false, {| attrs := attrs'; history := history (_node self) ++ [EvCall f p] |}))
    as Hv.
  { unfold validator_rejects, invoke. by rewrite Hget, Hcall. }
  rewrite callback_cons, (callback_item_passed _ _ _ _ Hd Hty Hv).
  cbn beta iota. rewrite callback_nil. cbn [fst snd _node with_node].
  assert (getattr
            (log_if_verbose (_verbose self) p
               (update_variable p_data p
                  {| attrs := attrs'; history := history (_node self) ++ [EvCall f p] |}))
            (validator p_data) = Some (AValue (value p))) as Hafter.
  { unfold getattr. rewrite log_if_verbose_attrs. unfold update_variable, hasattr. simpl.
    rewrite bool_decide_true by done. simpl. rewrite Halias. apply lookup_insert_eq. }
  split_and!; [done..|]. intros q Hname Hq.
  match goal with |- context [with_node ?n self] => set (n1 := n) in * end.
  assert (_params_data (with_node n1 self) !! name q = Some p_data) as Hdq
    by (by rewrite Hname).
  assert (validator_rejects p_data q (_node (with_node n1 self)) = (false, n1)) as Hvq.
  { unfold validator_rejects. simpl. by rewrite Hafter. }
  rewrite callback_cons, (callback_item_passed _ _ _ _ Hdq Hq Hvq).
  cbn beta iota. rewrite callback_nil. cbn [fst snd _node with_node].
  split; [done|].
  unfold log_if_verbose, _log_update, logger_info, record, update_variable, setattr.
  cbn [_verbose with_node].
  destruct (_verbose self), (hasattr n1 (var_name p_data)); simpl;
    rewrite ?calls_app; simpl; by rewrite ?app_nil_r.
Qed.
End callback_more.

(** ** The text of a logged update *)
Section log_update_properties.
Context `{Runtime}.

(** X7.  The line logged for a string shows the value between quotes, and
    the line logged for a string array shows the elements between quotes,
    joined with a comma and a space, between brackets. *)
Theorem X7_log_text n (s : string) (ss : list string) :
  log_update_msg {| name := n; type_ := PARAMETER_STRING; value := VStr s |} =
    "[PARAM] '" +:+ n +:+ "': '" +:+ s +:+ "'" ∧
  format_string_items ss = String.concat ", " ((λ x, "'" +:+ x +:+ "'") <$> ss) ∧
  log_update_msg {| name := n; type_ := PARAMETER_STRING_ARRAY; value := VStrArray ss |} =
    "[PARAM] '" +:+ n +:+ "': [" +:+
    String.concat ", " ((λ x, "'" +:+ x +:+ "'") <$> ss) +:+ "]".
Proof.
  assert (format_string_items ss = String.concat ", " ((λ x, "'" +:+ x +:+ "'") <$> ss))
    as Hjoin.
  { induction ss as [|x [|y rest] IH]; [done..|].
    change (format_string_items (x :: y :: rest))
      with (quoted x +:+ ", " +:+ format_string_items (y :: rest)).
    by rewrite IH. }
  split_and!; [done|done|]. unfold log_update_msg. simpl. by rewrite Hjoin.
Qed.

Lemma decode_ascii_replace_app (bs1 bs2 : list Byte.byte) :
  decode_ascii_replace (bs1 ++ bs2) =
    decode_ascii_replace bs1 +:+ decode_ascii_replace bs2.
Proof.
  induction bs1 as [|b bs1 IH]; [done|]. simpl.
  destruct (Byte.to_N b <? 128)%N; simpl; by rewrite IH.
Qed.

End log_update_properties.

(** ** More on the declarations and the bulk loader *)
Section loader_more.
Context `{Runtime}.
Implicit Types (self s : PManager) (n : string) (values : yaml).
Implicit Types (params pre post : list (string * yaml)).

(** X9.  Every declare method tells rclpy what it stores: the descriptor
    carries the name, the type under which the entry is stored, no dynamic
    typing, and, for the integer and double methods only, one range with the
    bounds and the step; the default value has the shape of that type.  The
    method raises exactly when rclpy does. *)
Theorem X9_declare_consistent n self :
  (∀ call, ∃ default_val descriptor,
     history (_node (perform n call self).2) =
       history (_node self) ++ [EvDeclare n default_val descriptor] ∧
     desc_name descriptor = n ∧
     desc_type descriptor = call_type call ∧
     value_type default_val = call_type call ∧
     dynamic_typing descriptor = false ∧
     integer_range descriptor = call_integer_range call ∧
     floating_point_range descriptor = call_floating_point_range call ∧
     type <$> _params_data (perform n call self).2 !! n = Some (desc_type descriptor) ∧
     (perform n call self).1 =
       match declare_parameter_raises (_node self) n default_val descriptor with
       | Some e => inl e
       | None => inr ()
       end) ∧
  (∀ default_val desc constraints ro var validator_name, ∃ descriptor,
     history (_node (declare_byte_array_parameter n default_val desc constraints ro
                       var validator_name self).2) =
       history (_node self) ++ [EvDeclare n (VBytes default_val) descriptor] ∧
     desc_name descriptor = n ∧
     desc_type descriptor = PARAMETER_BYTE_ARRAY ∧
     dynamic_typing descriptor = false ∧
     read_only descriptor = ro ∧
     integer_range descriptor = [] ∧
     floating_point_range descriptor = [] ∧
     _params_data (declare_byte_array_parameter n default_val desc constraints ro
                     var validator_name self).2 !! n =
       Some {| type := PARAMETER_BYTE_ARRAY; var_name := var; validator := validator_name |}).
Proof.
  split.
  - intros call. destruct call; do 2 eexists;
      unfold perform, _declare_integer_parameter, _declare_double_parameter,
        _declare_bool_parameter, _declare_string_parameter,
        _declare_integer_array_parameter, _declare_double_array_parameter,
        _declare_bool_array_parameter, _declare_string_array_parameter;
      rewrite declare_unfold; simpl; rewrite lookup_insert_eq; by split_and!.
  - intros default_val desc constraints ro var validator_name. eexists.
    unfold declare_byte_array_parameter. rewrite declare_unfold. simpl.
    rewrite lookup_insert_eq. by split_and!.
Qed.

(** The entries that the records of a run that went through left. *)
Lemma declare_all_entries pre self s1 :
  NoDup pre.*1 →
  declare_all pre self = (inr (), s1) →
  ∀ k v, (k, v) ∈ pre →
    ∃ call, parse_record v = inr call ∧ _params_data s1 !! k = Some (entry_of call).
Proof.
  revert self. induction pre as [|[n values] pre IH]; intros self Hnodup Hrun k v Hin.
  { by apply elem_of_nil in Hin. }
  csimpl in Hnodup. apply NoDup_cons in Hnodup as [Hn Hnodup].
  rewrite declare_all_cons in Hrun.
  destruct (declare_record n values self) as [[e|[]] s''] eqn:Hrec; [done|].
  apply elem_of_cons in Hin as [[= -> ->]|Hin]; [|by eapply IH].
  apply declare_record_inv in Hrec as [(e & _ & ? & _) | (call & Hparse & -> & _)]; [done|].
  exists call. split; [done|].
  apply declare_all_done in Hrun as (_ & Hother & _).
  rewrite Hother, perform_store by done. apply lookup_insert_eq.
Qed.

(** X10.  After a load that returns, the store holds, for every record of
    the mapping, the entry that its type tag, [var_name] and [validator]
    give, under the record's name; the entries of all other names are as
    before, so the names of the store are the old names and the names of the
    mapping. *)
Theorem X10_load_then_lookup params_file top m self s' :
  dict_lookup "params" top = Some (YMap m) →
  NoDup m.*1 →
  _parse_params_file params_file (Loaded (YMap top)) self = (inr (), s') →
  (∀ k v, (k, v) ∈ m →
     ∃ call, parse_record v = inr call ∧ _params_data s' !! k = Some (entry_of call)) ∧
  (∀ k, k ∉ m.*1 → _params_data s' !! k = _params_data self !! k) ∧
  dom (_params_data s') = dom (_params_data self) ∪ list_to_set m.*1.
Proof.
  intros Hparams Hnodup. rewrite (parse_params_file_loaded _ _ _ _ Hparams). intros Hrun.
  assert (NoDup (sorted m).*1) as Hnodup' by (by rewrite sorted_keys_Permutation).
  pose proof (declare_all_entries _ _ _ Hnodup' Hrun) as Hentries.
  apply declare_all_done in Hrun as (_ & Hother & Hsome & _).
  assert (∀ k, k ∈ (sorted m).*1 ↔ k ∈ m.*1) as Hkeys
    by (intros k; by rewrite sorted_keys_Permutation).
  split_and!.
  - intros k v Hin. apply Hentries. by apply sorted_elem_of.
  - intros k Hk. apply Hother. by rewrite Hkeys.
  - apply set_eq. intros k.
    rewrite elem_of_union, !elem_of_dom, elem_of_list_to_set.
    destruct (decide (k ∈ m.*1)) as [Hk|Hk].
    + split; [by right|]. intros _. apply Hsome. by rewrite Hkeys.
    + rewrite Hother by (by rewrite Hkeys). split; [by left | by intros [?|?]].
Qed.

Ltac split_binds H :=
  repeat (apply bind_inr in H as (? & ? & H)).

(** What the common arguments of a record are read from. *)
Lemma common_fields_eq m c :
  common_fields (YMap m) = inr c →
  ∃ desc constraints ro,
    dict_lookup "description" m = Some desc ∧
    dict_lookup "constraints" m = Some constraints ∧
    dict_lookup "read_only" m = Some ro ∧
    c_desc c = py_str desc ∧
    c_constraints c = py_str constraints ∧
    _parse_bool_str (py_str ro) = inr (c_read_only c) ∧
    c_var_name c = py_str (default (YStr "") (dict_lookup "var_name" m)) ∧
    c_validator c = py_str (default (YStr "") (dict_lookup "validator" m)).
Proof.
  unfold common_fields, field_str, field_bool, field_opt_str, get_or_empty.
  intros Hc.
  apply bind_inr in Hc as (d & (vd & Hd%getitem_inr & Hd')%bind_inr & Hc).
  apply bind_inr in Hc as (k & (vk & Hk%getitem_inr & Hk')%bind_inr & Hc).
  apply bind_inr in Hc as (r & (vr & Hr%getitem_inr & Hr')%bind_inr & Hc).
  apply bind_inr in Hc as (x & (vx & Hx & Hx')%bind_inr & Hc).
  apply bind_inr in Hc as (y & (vy & Hy & Hy')%bind_inr & Hc).
  exists vd, vk, vr. unfold mret, result_ret in *. by simplify_eq/=.
Qed.

(** What the entry of a record is read from. *)
Lemma parse_record_entry m call :
  parse_record (YMap m) = inr call →
  ∃ ty ro,
    dict_lookup "type" m = Some (YStr ty) ∧
    tag_type ty = Some (call_type call) ∧
    entry_of call =
      {| type := call_type call;
         var_name := py_str (default (YStr "") (dict_lookup "var_name" m));
         validator := py_str (default (YStr "") (dict_lookup "validator" m)) |} ∧
    dict_lookup "read_only" m = Some ro ∧
    _parse_bool_str (py_str ro) = inr (c_read_only (call_common call)) ∧
    (∀ b, ro = YBool b → c_read_only (call_common call) = b).
Proof.
  unfold parse_record. intros (ty & Hty%getitem_inr & Hparse)%bind_inr.
  destruct ty as [| | | |ty| |]; try done.
  cbn [eq_str] in Hparse.
  repeat case_bool_decide; subst; [..|done]; split_binds Hparse;
    match goal with Hc : common_fields (YMap m) = inr _ |- _ =>
      apply common_fields_eq in Hc
        as (desc & constraints & ro & _ & _ & Hro & _ & _ & Htext & Hvar & Hval)
    end;
    unfold mret, result_ret in Hparse; injection Hparse as <-; eexists; exists ro;
    (split_and!; [done | by vm_compute | unfold entry_of; simpl; by rewrite Hvar, Hval
                 | done | done |]);
    intros b ->;
    assert (_parse_bool_str (py_str (YBool b)) = inr b) as Hb by (by destruct b);
    rewrite Hb in Htext; simpl; congruence.
Qed.

(** X11.  A record whose arguments evaluate is stored under the type its
    tag stands for, with the text of [var_name] and of [validator] as the
    names of the variable and of the validator, the empty text when the key
    is absent; its read-only flag is what the boolean parser makes of the
    text of [read_only], which for a YAML boolean is that boolean. *)
Theorem X11_record_entry m call :
  parse_record (YMap m) = inr call →
  ∃ ty ro,
    dict_lookup "type" m = Some (YStr ty) ∧
    tag_type ty = Some (call_type call) ∧
    entry_of call =
      {| type := call_type call;
         var_name := py_str (default (YStr "") (dict_lookup "var_name" m));
         validator := py_str (default (YStr "") (dict_lookup "validator" m)) |} ∧
    dict_lookup "read_only" m = Some ro ∧
    _parse_bool_str (py_str ro) = inr (c_read_only (call_common call)) ∧
    (∀ b, ro = YBool b → c_read_only (call_common call) = b).
Proof. apply parse_record_entry. Qed.

(** X12.  A record without a type, with a type tag outside the eight of
    the input format (as [byte_array], for which a declare method exists),
    or that is not a mapping at all, makes the loader raise for that
    parameter and leaves the manager untouched; the message ends in the
    missing key or in the unsupported tag. *)
Theorem X12_dispatch_failures n self :
  (∀ m, dict_lookup "type" m = None →
     declare_record n (YMap m) self =
       (inl (RuntimeError
               ("Failed to parse configuration of parameter " +:+ n +:+ ": 'type'")),
        self)) ∧
  (∀ m ty, dict_lookup "type" m = Some (YStr ty) → ty ∉ supported_types →
     declare_record n (YMap m) self =
       (inl (RuntimeError
               ("Failed to parse configuration of parameter " +:+ n +:+
                ": Unsupported parameter type: " +:+ ty)),
        self)) ∧
  ("byte_array" ∉ supported_types) ∧
  (∀ values, (∀ m, values ≠ YMap m) →
     ∃ msg, declare_record n values self =
       (inl (RuntimeError
               ("Failed to parse configuration of parameter " +:+ n +:+ ": " +:+ msg)),
        self)).
Proof.
  split_and!.
  - intros m Hnone. apply (declare_record_parse_error n (YMap m) (KeyError "type")).
    unfold parse_record. by rewrite (getitem_missing _ _ Hnone).
  - intros m ty Hty Hunsupported.
    apply (declare_record_parse_error n (YMap m)
             (ValueError ("Unsupported parameter type: " +:+ ty))).
    unfold parse_record. rewrite (getitem_present _ _ _ Hty). cbn [mbind result_bind eq_str].
    rewrite !bool_decide_false; [done|intros ->; apply Hunsupported; unfold supported_types;
                                      by repeat constructor..].
  - unfold supported_types. intros Hin.
    repeat (apply elem_of_cons in Hin as [Hin|Hin]; [done|]). by apply elem_of_nil in Hin.
  - intros values Hshape.
    destruct (parse_record values) as [e|call] eqn:Hparse.
    + exists (exn_str e). by apply declare_record_parse_error.
    + exfalso. unfold parse_record in Hparse.
      apply bind_inr in Hparse as (ty & Hty & _).
      destruct values; try done. by eapply Hshape.
Qed.

(** X13.  When the file is not found, is not valid YAML, cannot be loaded,
    is empty, or is a mapping without the key [params], the loader logs one
    line at level fatal and raises a [RuntimeError] with the same text,
    which names the file (or carries the cause); nothing is declared and the
    store is untouched. *)
Theorem X13_unusable_file params_file self :
  let fails msg loaded :=
    _parse_params_file params_file loaded self =
      (inl (RuntimeError msg),
       {| _node := {| attrs := attrs (_node self);
                      history := history (_node self) ++ [EvLog Fatal msg] |};
          _params_data := _params_data self;
          _verbose := _verbose self |}) in
  fails ("Parameters file not found: " +:+ params_file) FileNotFoundError ∧
  (∀ e, fails ("Invalid YAML in " +:+ params_file +:+ ": " +:+ e) (YAMLError e)) ∧
  (∀ e, fails ("Failed to parse parameters file: " +:+ e) (LoadException e)) ∧
  fails ("Invalid parameters file: " +:+ params_file) (Loaded YNone) ∧
  (∀ top, dict_lookup "params" top = None →
     fails ("Invalid parameters file: " +:+ params_file) (Loaded (YMap top))).
Proof.
  split_and!; [done..|]. intros top Hnone.
  unfold _parse_params_file, mbind, M_bind, lift. simpl. rewrite Hnone.
  by rewrite bool_decide_false by (by intros [? ?]).
Qed.

(** X14.  When the key [params] of the document holds something that is
    not a mapping, the loader raises an [AttributeError] as it is: the
    exception is not turned into a [RuntimeError], nothing is logged, and
    the manager is untouched. *)
Theorem X14_params_not_a_mapping params_file top v self :
  dict_lookup "params" top = Some v →
  (∀ m, v ≠ YMap m) →
  ∃ msg, _parse_params_file params_file (Loaded (YMap top)) self =
           (inl (AttributeError msg), self).
Proof.
  intros Hparams Hshape.
  unfold _parse_params_file, mbind, M_bind, lift. simpl. rewrite Hparams.
  rewrite bool_decide_true by (by eexists). simpl.
  destruct v; try (by eexists). by destruct (Hshape m).
Qed.

(** X15.  The loader raises nothing but a [RuntimeError] once it is in
    the loop over the records, and the message names a parameter of the
    mapping. *)
Theorem X15_loop_errors params_file top m self e s' :
  dict_lookup "params" top = Some (YMap m) →
  _parse_params_file params_file (Loaded (YMap top)) self = (inl e, s') →
  ∃ n e0,
    n ∈ m.*1 ∧
    e = RuntimeError
          ("Failed to parse configuration of parameter " +:+ n +:+ ": " +:+ exn_str e0).
Proof.
  intros Hparams. rewrite (parse_params_file_loaded _ _ _ _ Hparams). intros Hrun.
  destruct (first_failure (sorted m) self)
    as [[s'' Hok] | (pre & n & v & post & s1 & e' & s'' & Hsplit & _ & Hfail & Hrun')];
    [congruence|].
  rewrite Hrun in Hrun'. injection Hrun' as <- <-.
  assert (n ∈ m.*1) as Hn.
  { rewrite <- sorted_keys_Permutation, Hsplit, fmap_app, fmap_cons.
    apply elem_of_app. right. by left. }
  apply declare_record_inv in Hfail
    as [(e0 & _ & [= ->] & _) | (call & _ & _ & [?|[e0 [= ->]]])]; [|done|];
    by exists n, e0.
Qed.

(** X16.  One turn of the loop leaves the manager untouched exactly when
    the arguments of the record do not evaluate.  When they do, the entry is
    in the store and [declare_parameter] has been called, whether rclpy
    accepted the declaration or raised. *)
Theorem X16_record_effect n values self :
  ((declare_record n values self).2 = self ↔ ∃ e, parse_record values = inl e) ∧
  (∀ call, parse_record values = inr call →
     _params_data (declare_record n values self).2 !! n = Some (entry_of call) ∧
     declared_names (history (_node (declare_record n values self).2)) =
       declared_names (history (_node self)) ++ [n]).
Proof.
  assert (∀ call, parse_record values = inr call →
            (declare_record n values self).2 = (perform n call self).2) as Hcall.
  { intros call Hparse. rewrite (declare_record_call _ _ _ _ Hparse).
    by destruct (perform n call self) as [[?|?] ?]. }
  split.
  - split.
    + intros Hsame. destruct (parse_record values) as [e|call] eqn:Hparse; [by exists e|].
      exfalso. rewrite (Hcall call eq_refl) in Hsame.
      pose proof (perform_declared_names n call self) as Hnames.
      rewrite Hsame in Hnames. apply (f_equal length) in Hnames.
      rewrite length_app in Hnames. simpl in Hnames. lia.
    + intros [e Hparse]. by rewrite (declare_record_parse_error _ _ _ _ Hparse).
  - intros call Hparse. rewrite (Hcall call Hparse). split.
    + rewrite perform_store. apply lookup_insert_eq.
    + apply perform_declared_names.
Qed.


(** X18.  Once a file is loaded, an update of one of its parameters with
    a type other than the one its type tag stands for is rejected with the
    type-mismatch reason, and an update with that type whose validator name
    does not resolve on the node is accepted. *)
Theorem X18_loaded_parameter_typed params_file top m self s' k record ty t p :
  dict_lookup "params" top = Some (YMap m) →
  NoDup m.*1 →
  _parse_params_file params_file (Loaded (YMap top)) self = (inr (), s') →
  (k, YMap record) ∈ m →
  dict_lookup "type" record = Some (YStr ty) →
  tag_type ty = Some t →
  name p = k →
  (type_ p ≠ t →
   (_on_set_parameters_callback s' [p]).1 =
     {| successful := false; reason := "Parameter '" +:+ k +:+ "' type mismatch" |}) ∧
  (type_ p = t →
   getattr (_node s')
     (py_str (default (YStr "") (dict_lookup "validator" record))) = None →
   (_on_set_parameters_callback s' [p]).1 = {| successful := true; reason := "" |}).
Proof.
  intros Hparams Hnodup Hrun Hin Hty Htag Hname.
  rewrite (parse_params_file_loaded _ _ _ _ Hparams) in Hrun.
  assert (NoDup (sorted m).*1) as Hnodup' by (by rewrite sorted_keys_Permutation).
  apply sorted_elem_of in Hin.
  destruct (declare_all_entries _ _ _ Hnodup' Hrun _ _ Hin) as (call & Hparse & Hentry).
  apply parse_record_entry in Hparse as (ty' & ro & Hty' & Htag' & Hcall & _).
  assert (ty' = ty) as -> by congruence.
  assert (call_type call = t) as Ht by congruence.
  rewrite Hcall, Ht, <- Hname in Hentry. split.
  - intros Hne. rewrite callback_cons.
    rewrite (callback_item_type_mismatch _ _ _ Hentry); [by rewrite Hname|done].
  - intros Heq Hget. rewrite callback_cons.
    rewrite (callback_item_passed _ _ _ (_node s') Hentry); [done|done|].
    unfold validator_rejects. simpl. by rewrite Hget.
Qed.
End loader_more.

(** ** The manager on examples *)
Module Examples.
Import Demo.

(** The batch [a] valid, [b] of the wrong type, [c] valid: the variable of
    [a] holds the new value, those of [b] and [c] are as they were, and the
    result names [b]. *)
Lemma short_circuit_example :
  let run := _on_set_parameters_callback manager1 [count_3; label_as_int; limit_7] in
  run.1 = {| successful := false; reason := "Parameter 'label' type mismatch" |} ∧
  attrs (_node run.2) !! "count" = Some (AValue (VInt 3)) ∧
  attrs (_node run.2) !! "label" = Some (AValue (VStr "x")) ∧
  attrs (_node run.2) !! "limit" = Some (AValue (VInt 5)) ∧
  writes (history (_node run.2)) = [("count", VInt 3)].
Proof. by vm_compute. Qed.

(** C2, counterexample: [label] is declared as a string; an update of it
    with the integer tag is rejected, and the reason is not
    "type mismatch for label". *)
Lemma C2_counterexample :
  _params_data manager1 !! name label_as_int =
    Some {| type := PARAMETER_STRING; var_name := "label"; validator := "" |} ∧
  type_ label_as_int = PARAMETER_INTEGER ∧
  (_on_set_parameters_callback manager1 [label_as_int]).1 =
    {| successful := false; reason := "Parameter 'label' type mismatch" |} ∧
  reason (_on_set_parameters_callback manager1 [label_as_int]).1 ≠
    "type mismatch for " +:+ name label_as_int.
Proof. split_and!; by vm_compute. Qed.

(** C2, on an example: [count] is applied, [label] has the wrong tag, and
    [limit] is never looked at. *)
Lemma C2_witness :
  _on_set_parameters_callback manager1 [count_3] =
    (accepted, (_on_set_parameters_callback manager1 [count_3]).2) ∧
  _params_data manager1 !! name label_as_int =
    Some {| type := PARAMETER_STRING; var_name := "label"; validator := "" |} ∧
  type_ label_as_int ≠ PARAMETER_STRING ∧
  _on_set_parameters_callback manager1 ([count_3] ++ label_as_int :: [limit_7]) =
    ({| successful := false; reason := "Parameter 'label' type mismatch" |},
     with_node
       (logger_error "Parameter 'label' type mismatch"
          (_node (_on_set_parameters_callback manager1 [count_3]).2))
       (_on_set_parameters_callback manager1 [count_3]).2).
Proof.
  assert (_on_set_parameters_callback manager1 [count_3] =
            (accepted, (_on_set_parameters_callback manager1 [count_3]).2)) as Hpre
    by (by vm_compute).
  assert (_params_data manager1 !! name label_as_int =
            Some {| type := PARAMETER_STRING; var_name := "label"; validator := "" |}) as Hd
    by (by vm_compute).
  assert (type_ label_as_int ≠ PARAMETER_STRING) as Hty by done.
  split_and!; [done..|].
  exact (C2_type_mismatch manager1 [count_3] label_as_int [limit_7] _ _ Hpre Hd Hty).
Defined.

(** C3, on an example: two updates of a name the store does not hold. *)
Lemma C3_witness :
  (∀ p, p ∈ [unregistered; unregistered] → _params_data manager1 !! name p = None) ∧
  _on_set_parameters_callback manager1 [unregistered; unregistered] =
    ({| successful := true; reason := "" |}, manager1).
Proof.
  assert (∀ p, p ∈ [unregistered; unregistered] →
               _params_data manager1 !! name p = None) as Hunknown.
  { intros p Hp. repeat (apply elem_of_cons in Hp as [->|Hp]); [by vm_compute..|].
    by apply elem_of_nil in Hp. }
  split; [done|].
  exact (C3_unknown_names manager1 [unregistered; unregistered] Hunknown).
Defined.

(** C4, counterexample: [guarded] names the validator [reject], which
    resolves on the node and rejects; the update is refused, and the reason
    is not "validation failed for guarded". *)
Lemma C4_counterexample :
  _params_data manager1 !! name guarded_false =
    Some {| type := PARAMETER_BOOL; var_name := "flag"; validator := "reject" |} ∧
  type_ guarded_false = PARAMETER_BOOL ∧
  getattr (_node manager1) "reject" = Some (ACallable 1%nat) ∧
  (invoke 1%nat guarded_false (_node manager1)).1 = false ∧
  (_on_set_parameters_callback manager1 [guarded_false]).1 =
    {| successful := false; reason := "Parameter 'guarded' update validation failed" |} ∧
  reason (_on_set_parameters_callback manager1 [guarded_false]).1 ≠
    "validation failed for " +:+ name guarded_false.
Proof. split_and!; by vm_compute. Qed.

(** C4, on an example: [count] is applied, the validator of [guarded]
    rejects, and [limit] is never looked at. *)
Lemma C4_witness :
  _on_set_parameters_callback manager1 [count_3] =
    (accepted, (_on_set_parameters_callback manager1 [count_3]).2) ∧
  _params_data manager1 !! name guarded_false =
    Some {| type := PARAMETER_BOOL; var_name := "flag"; validator := "reject" |} ∧
  type_ guarded_false = PARAMETER_BOOL ∧
  _on_set_parameters_callback manager1 ([count_3] ++ guarded_false :: [limit_7]) =
    ({| successful := false; reason := "Parameter 'guarded' update validation failed" |},
     with_node
       (logger_error "Parameter 'guarded' update validation failed"
          (invoke 1%nat guarded_false
             (_node (_on_set_parameters_callback manager1 [count_3]).2)).2)
       (_on_set_parameters_callback manager1 [count_3]).2).
Proof.
  assert (_on_set_parameters_callback manager1 [count_3] =
            (accepted, (_on_set_parameters_callback manager1 [count_3]).2)) as Hpre
    by (by vm_compute).
  assert (_params_data manager1 !! name guarded_false =
            Some {| type := PARAMETER_BOOL; var_name := "flag"; validator := "reject" |})
    as Hd by (by vm_compute).
  assert (type_ guarded_false = PARAMETER_BOOL) as Hty by done.
  split_and!; [done..|].
  destruct (C4_validator manager1 [count_3] guarded_false [limit_7] _ _ Hpre Hd Hty)
    as [Hresolves _].
  destruct (Hresolves 1%nat) as [_ Hrejects]; [by vm_compute|].
  apply Hrejects. by vm_compute.
Defined.

(** C5, counterexample: [limit] is declared read-only, and an update of
    it goes through the callback: the result is successful and the variable
    of the node holds the new value. *)
Lemma C5_counterexample :
  declared_read_only (history (_node manager1)) "limit" = true ∧
  (_on_set_parameters_callback manager1 [limit_7]).1 =
    {| successful := true; reason := "" |} ∧
  attrs (_node manager1) !! "limit" = Some (AValue (VInt 5)) ∧
  attrs (_node (_on_set_parameters_callback manager1 [limit_7]).2) !! "limit" =
    Some (AValue (VInt 7)).
Proof. split_and!; by vm_compute. Qed.

(** C5, on an example: [limit] declared read-only on a fresh manager, then
    updated. *)
Lemma C5_witness :
  c_read_only (call_common limit_call) = true ∧
  perform "limit" limit_call manager0 = (inr (), (perform "limit" limit_call manager0).2) ∧
  name limit_7 = "limit" ∧
  type_ limit_7 = call_type limit_call ∧
  (validator_rejects (entry_of limit_call) limit_7
     (_node (perform "limit" limit_call manager0).2)).1 = false ∧
  (_on_set_parameters_callback (perform "limit" limit_call manager0).2 [limit_7]).1 =
    {| successful := true; reason := "" |}.
Proof.
  assert (perform "limit" limit_call manager0 =
            (inr (), (perform "limit" limit_call manager0).2)) as Hperform
    by (by vm_compute).
  assert ((validator_rejects (entry_of limit_call) limit_7
             (_node (perform "limit" limit_call manager0).2)).1 = false) as Hv
    by (by vm_compute).
  split_and!; [done..|].
  exact (proj1 (proj2 (proj2
    (C5_read_only_not_enforced manager0 "limit" limit_call _ limit_7
       eq_refl Hperform eq_refl eq_refl Hv)))).
Defined.

(** C6, counterexample: [count] is in the store; adding data under that
    name again returns normally and replaces the entry, and the declare
    method, which rclpy refuses here, has replaced the entry all the same. *)
Lemma C6_counterexample :
  _params_data manager1 !! "count" =
    Some {| type := PARAMETER_INTEGER; var_name := "count"; validator := "accept" |} ∧
  (_add_to_data "count" PARAMETER_STRING "label" "" manager1).1 = inr () ∧
  _params_data (_add_to_data "count" PARAMETER_STRING "label" "" manager1).2 !! "count" =
    Some {| type := PARAMETER_STRING; var_name := "label"; validator := "" |} ∧
  (_declare_string_parameter "count" "x" "" "" false "label" "" manager1).1 =
    inl (OtherException "Parameter already declared: count") ∧
  _params_data (_declare_string_parameter "count" "x" "" "" false "label" "" manager1).2
    !! "count" =
    Some {| type := PARAMETER_STRING; var_name := "label"; validator := "" |}.
Proof. split_and!; by vm_compute. Qed.

(** C6, on an example: [count] declared again, as a string. *)
Lemma C6_witness :
  _params_data manager1 !! "count" =
    Some {| type := PARAMETER_INTEGER; var_name := "count"; validator := "accept" |} ∧
  (_add_to_data "count" PARAMETER_STRING "label" "" manager1).1 = inr () ∧
  _params_data (_add_to_data "count" PARAMETER_STRING "label" "" manager1).2 !! "count" =
    Some {| type := PARAMETER_STRING; var_name := "label"; validator := "" |}.
Proof.
  assert (_params_data manager1 !! "count" =
            Some {| type := PARAMETER_INTEGER; var_name := "count"; validator := "accept" |})
    as Hold by (by vm_compute).
  split; [done|].
  destruct (C6_redeclare_replaces manager1 "count" PARAMETER_STRING "label" "" _ Hold)
    as (Hreturns & Hnew & _).
  by split.
Defined.

(** C7, on an example: the mapping of [doc0] and the same mapping in
    reverse order give the same run, and the names are declared in sorted
    order. *)
Lemma C7_witness :
  dict_lookup "params" [("params", YMap params0)] = Some (YMap params0) ∧
  NoDup params0.*1 ∧
  _parse_params_file "params.yaml" (Loaded (YMap [("params", YMap (reverse params0))]))
    manager0 =
    _parse_params_file "params.yaml" (Loaded doc0) manager0 ∧
  declared_names (history (_node manager1)) = ["count"; "guarded"; "label"; "limit"].
Proof.
  assert (NoDup params0.*1) as Hnodup by (apply (bool_decide_unpack _); by vm_compute).
  split_and!; [done..| |by vm_compute].
  destruct (C7_sorted_order "params.yaml" [("params", YMap params0)] params0 manager0
              eq_refl Hnodup) as (_ & _ & _ & Horder & _).
  apply (Horder [("params", YMap (reverse params0))] (reverse params0) eq_refl).
  apply reverse_Permutation.
Defined.

(** C8, on an example: the record of [m_param] does not parse. *)
Lemma C8_witness :
  NoDup params_bad.*1 ∧
  ("m_param", bool_record "yes" "flag" "") ∈ params_bad ∧
  malformed (bool_record "yes" "flag" "") ∧
  ∃ pre n' values' post e s1,
    sorted params_bad = pre ++ (n', values') :: post ∧
    declare_all pre manager0 = (inr (), s1) ∧
    (_parse_params_file "params.yaml" (Loaded (YMap [("params", YMap params_bad)]))
       manager0).1 =
      inl (RuntimeError
             ("Failed to parse configuration of parameter " +:+ n' +:+ ": " +:+ exn_str e)) ∧
    ((n', values') = ("m_param", bool_record "yes" "flag" "") ∨
     ("m_param", bool_record "yes" "flag" "") ∈ post).
Proof.
  assert (NoDup params_bad.*1) as Hnodup by (apply (bool_decide_unpack _); by vm_compute).
  assert (("m_param", bool_record "yes" "flag" "") ∈ params_bad) as Hin
    by (right; left).
  assert (malformed (bool_record "yes" "flag" "")) as Hmal.
  { apply (bad_read_only _ (YStr "yes")); [done|]. apply (bool_decide_unpack _). by vm_compute. }
  split_and!; [done..|].
  destruct (C8_load_aborts "params.yaml" [("params", YMap params_bad)] params_bad manager0
              "m_param" (bool_record "yes" "flag" "") eq_refl Hnodup Hin Hmal)
    as (pre & n' & values' & post & e & s1 & Hsplit & Hpre & Hres & Hwhere & _).
  by exists pre, n', values', post, e, s1.
Defined.

(** The names that [params_bad] leaves declared: the record before the one
    that does not parse, and no record after it. *)
Lemma load_aborts_example :
  let run := _parse_params_file "params.yaml"
               (Loaded (YMap [("params", YMap params_bad)])) manager0 in
  run.1 = inl (RuntimeError
    "Failed to parse configuration of parameter m_param: Unknown boolean text representation: yes") ∧
  declared_names (history (_node run.2)) = ["a_param"] ∧
  is_Some (_params_data run.2 !! "a_param") ∧
  _params_data run.2 !! "m_param" = None ∧
  _params_data run.2 !! "z_param" = None.
Proof. split_and!; [by vm_compute..| |by vm_compute|by vm_compute]. by vm_compute; eexists. Qed.

(** X6, on an example: [mode] is updated once, and its validator is gone. *)
Lemma X6_witness :
  _params_data manager_alias !! name mode_fast =
    Some {| type := PARAMETER_STRING; var_name := "accept"; validator := "accept" |} ∧
  getattr (_node manager_alias) "accept" = Some (ACallable 0%nat) ∧
  call 0%nat mode_fast (attrs (_node manager_alias)) = (true, attrs (_node manager_alias)) ∧
  is_Some (attrs (_node manager_alias) !! "accept") ∧
  (_on_set_parameters_callback manager_alias [mode_fast]).1 = accepted ∧
  getattr (_node (_on_set_parameters_callback manager_alias [mode_fast]).2) "accept" =
    Some (AValue (VStr "fast")).
Proof.
  assert (_params_data manager_alias !! name mode_fast =
            Some {| type := PARAMETER_STRING; var_name := "accept"; validator := "accept" |})
    as Hd by (by vm_compute).
  assert (getattr (_node manager_alias) "accept" = Some (ACallable 0%nat)) as Hget
    by (by vm_compute).
  assert (call 0%nat mode_fast (attrs (_node manager_alias)) =
            (true, attrs (_node manager_alias))) as Hcall by done.
  assert (is_Some (attrs (_node manager_alias) !! "accept")) as Hvar
    by (exists (ACallable 0%nat); by vm_compute).
  split_and!; [done..| |].
  - exact (proj1 (X6_validator_overwritten manager_alias mode_fast _ 0%nat _
                    Hd eq_refl eq_refl Hget Hcall Hvar)).
  - exact (proj1 (proj2 (X6_validator_overwritten manager_alias mode_fast _ 0%nat _
                           Hd eq_refl eq_refl Hget Hcall Hvar))).
Defined.

(** X10, on an example: the load of [doc0] returns, and [count] is stored
    with the entry of its record. *)
Lemma X10_witness :
  NoDup params0.*1 ∧
  _parse_params_file "params.yaml" (Loaded (YMap [("params", YMap params0)])) manager0 =
    (inr (), manager1) ∧
  ("count", integer_record 5 "false" "count" "accept") ∈ params0 ∧
  ∃ call,
    parse_record (integer_record 5 "false" "count" "accept") = inr call ∧
    _params_data manager1 !! "count" = Some (entry_of call).
Proof.
  assert (NoDup params0.*1) as Hnodup by (apply (bool_decide_unpack _); by vm_compute).
  assert (_parse_params_file "params.yaml" (Loaded (YMap [("params", YMap params0)]))
            manager0 = (inr (), manager1)) as Hrun by (by vm_compute).
  assert (("count", integer_record 5 "false" "count" "accept") ∈ params0) as Hin
    by (do 3 right; left).
  split_and!; [done..|].
  exact (proj1 (X10_load_then_lookup "params.yaml" [("params", YMap params0)] params0
                  manager0 manager1 eq_refl Hnodup Hrun) _ _ Hin).
Defined.

(** X14, on an example: [params] is a list. *)
Lemma X14_witness :
  dict_lookup "params" doc_list = Some (YList [YStr "count"]) ∧
  (∀ m, YList [YStr "count"] ≠ YMap m) ∧
  ∃ msg, _parse_params_file "params.yaml" (Loaded (YMap doc_list)) manager0 =
           (inl (AttributeError msg), manager0).
Proof.
  assert (∀ m, YList [YStr "count"] ≠ YMap m) as Hshape by done.
  split_and!; [done..|].
  exact (X14_params_not_a_mapping "params.yaml" doc_list _ manager0 eq_refl Hshape).
Defined.

(** X15, on an example: the load of [params_bad] raises for [m_param]. *)
Lemma X15_witness :
  _parse_params_file "params.yaml" (Loaded (YMap [("params", YMap params_bad)])) manager0 =
    (inl (RuntimeError
       "Failed to parse configuration of parameter m_param: Unknown boolean text representation: yes"),
     (_parse_params_file "params.yaml" (Loaded (YMap [("params", YMap params_bad)]))
        manager0).2) ∧
  ∃ n e0,
    n ∈ params_bad.*1 ∧
    RuntimeError
      "Failed to parse configuration of parameter m_param: Unknown boolean text representation: yes" =
    RuntimeError
      ("Failed to parse configuration of parameter " +:+ n +:+ ": " +:+ exn_str e0).
Proof.
  assert (_parse_params_file "params.yaml" (Loaded (YMap [("params", YMap params_bad)]))
            manager0 =
          (inl (RuntimeError
             "Failed to parse configuration of parameter m_param: Unknown boolean text representation: yes"),
           (_parse_params_file "params.yaml" (Loaded (YMap [("params", YMap params_bad)]))
              manager0).2)) as Hrun by (by vm_compute).
  split; [done|].
  exact (X15_loop_errors "params.yaml" [("params", YMap params_bad)] params_bad manager0
           _ _ eq_refl Hrun).
Defined.

(** X18, on an example: [label] is loaded as a string, and an update of it
    with the integer tag is rejected. *)
Lemma X18_witness :
  NoDup params0.*1 ∧
  _parse_params_file "params.yaml" (Loaded (YMap [("params", YMap params0)])) manager0 =
    (inr (), manager1) ∧
  ("label", YMap [("type", YStr "string"); ("default_value", YStr "x");
                  ("description", YStr "A text."); ("constraints", YStr "");
                  ("read_only", YBool false); ("var_name", YStr "label")]) ∈ params0 ∧
  tag_type "string" = Some PARAMETER_STRING ∧
  type_ label_as_int ≠ PARAMETER_STRING ∧
  (_on_set_parameters_callback manager1 [label_as_int]).1 =
    {| successful := false; reason := "Parameter '" +:+ "label" +:+ "' type mismatch" |}.
Proof.
  assert (NoDup params0.*1) as Hnodup by (apply (bool_decide_unpack _); by vm_compute).
  assert (_parse_params_file "params.yaml" (Loaded (YMap [("params", YMap params0)]))
            manager0 = (inr (), manager1)) as Hrun by (by vm_compute).
  assert (("label", YMap [("type", YStr "string"); ("default_value", YStr "x");
                          ("description", YStr "A text."); ("constraints", YStr "");
                          ("read_only", YBool false); ("var_name", YStr "label")])
          ∈ params0) as Hin by (right; left).
  assert (type_ label_as_int ≠ PARAMETER_STRING) as Hne by done.
  split_and!; [done..|].
  exact (proj1 (X18_loaded_parameter_typed "params.yaml" [("params", YMap params0)] params0
                  manager0 manager1 "label" _ "string" PARAMETER_STRING label_as_int
                  eq_refl Hnodup Hrun Hin eq_refl eq_refl eq_refl) Hne).
Defined.

(** X11, on an example: the record of [limit]. *)
Lemma X11_witness :
  parse_record (YMap limit_fields) = inr limit_call ∧
  ∃ ty ro,
    dict_lookup "type" limit_fields = Some (YStr ty) ∧
    tag_type ty = Some (call_type limit_call) ∧
    entry_of limit_call =
      {| type := call_type limit_call;
         var_name := py_str (default (YStr "") (dict_lookup "var_name" limit_fields));
         validator := py_str (default (YStr "") (dict_lookup "validator" limit_fields)) |} ∧
    dict_lookup "read_only" limit_fields = Some ro ∧
    _parse_bool_str (py_str ro) = inr (c_read_only (call_common limit_call)) ∧
    (∀ b, ro = YBool b → c_read_only (call_common limit_call) = b).
Proof.
  assert (parse_record (YMap limit_fields) = inr limit_call) as Hparse by (by vm_compute).
  split; [done|].
  exact (X11_record_entry limit_fields limit_call Hparse).
Defined.

End Examples.
